(** * The session and navigation engine of the Arabic Bible reader

    A shallow embedding of the [App] component: the corpus model, the
    chapter navigator [findAdjacentChapter] and the tab handlers
    ([handleSearch], [handleChapterNavigation], [handleVerseSelection],
    [handleHistoryItemClick], [handleTabClose], [handleTabClick],
    [handleScroll]), followed by the properties of the specification
    that concern them.

    The corpus ([./data/bible.json]) and the search engine ([searchBible]
    of [./utils/arabicUtils]) are parameters.  The calls into
    [./utils/history] ([saveToHistory], [saveScrollPosition], ...) write
    to the browser store and leave the state of the component alone; they
    are not part of the model, except for what the mount effect reads back
    ([getLastTab], [getScrollPositions]), which it takes as arguments. *)

From Stdlib Require Import ZArith String List Lia.
From stdpp Require Import base option list strings pretty gmap.

Local Open Scope string_scope.
Local Open Scope Z_scope.
Local Open Scope list_scope.

(** ** Corpus model

    The shape of [bible.json] as the component reads it: testaments hold
    books, books hold chapters, chapters hold verses.  JSON numbers that
    count chapters and verses are integers, modelled in [Z]. *)

Record Verse := mkVerse {
  verse_number : Z;
  verse_text : string
}.

Record Chapter := mkChapter {
  chapter_number : Z;
  chapter_verses : list Verse
}.

Record Book := mkBook {
  book_name : string;
  book_chapters : list Chapter
}.

Record Testament := mkTestament {
  testament_name : string;
  testament_books : list Book
}.

(** The object literal [{ testament, book, chapter }] returned by the
    navigator. *)
Record Coordinate := mkCoordinate {
  coord_testament : string;
  coord_book : string;
  coord_chapter : Z
}.

Inductive Direction := prev | next.

(** ** JavaScript values and completions *)

(** The only error the modelled code can raise: reading a property of
    [undefined]. *)
Inductive JsError := TypeError.

(** A call either returns normally or throws. *)
Inductive completion (A : Type) :=
| Return (a : A)
| Throw (e : JsError).
Arguments Return {A} a.
Arguments Throw {A} e.

Definition cbind {A B} (c : completion A) (k : A -> completion B) : completion B :=
  match c with
  | Return a => k a
  | Throw e => Throw e
  end.

Notation "'let!' x ':=' c 'in' k" := (cbind c (fun x => k))
  (at level 10, x name, c at level 100, k at level 200).

(** [o.f] where [o] may be [undefined]: a TypeError when it is. *)
Definition member {A B} (o : option A) (f : A -> B) : completion B :=
  match o with
  | Some a => Return (f a)
  | None => Throw TypeError
  end.

(** [Array.prototype.findIndex]: the index of the first element that
    satisfies [p], or [-1]. *)
Fixpoint findIndex_from {A} (p : A -> bool) (l : list A) (i : Z) : Z :=
  match l with
  | [] => -1
  | x :: l' => if p x then i else findIndex_from p l' (i + 1)
  end.

Definition findIndex {A} (p : A -> bool) (l : list A) : Z :=
  findIndex_from p l 0.

(** [a[i]] on an array: [undefined] (here [None]) outside [0 .. length-1]. *)
Definition at_index {A} (l : list A) (i : Z) : option A :=
  if i <? 0 then None else l !! Z.to_nat i.

(** [a.length] as a number. *)
Definition len {A} (l : list A) : Z := Z.of_nat (length l).

(** ** The chapter navigator *)

Section Navigator.

(** The corpus imported from [./data/bible.json]. *)
Variable bibleData : list Testament.

Definition findAdjacentChapter (testament book : string) (chapter : Z)
    (direction : Direction) : completion (option Coordinate) :=
  let currentTestamentIndex :=
    findIndex (fun t => String.eqb (testament_name t) testament) bibleData in
  let currentTestament := at_index bibleData currentTestamentIndex in
  let! currentTestament_books := member currentTestament testament_books in
  let currentBookIndex :=
    findIndex (fun b => String.eqb (book_name b) book) currentTestament_books in
  let currentBook := at_index currentTestament_books currentBookIndex in
  match direction with
  | next =>
      let! currentBook_chapters := member currentBook book_chapters in
      if chapter <? len currentBook_chapters then
        Return (Some (mkCoordinate testament book (chapter + 1)))
      else if currentBookIndex <? len currentTestament_books - 1 then
        let nextBook := at_index currentTestament_books (currentBookIndex + 1) in
        let! nextBook_name := member nextBook book_name in
        Return (Some (mkCoordinate testament nextBook_name 1))
      else if currentTestamentIndex <? len bibleData - 1 then
        let nextTestament := at_index bibleData (currentTestamentIndex + 1) in
        let! nextTestament_name := member nextTestament testament_name in
        let! nextTestament_books := member nextTestament testament_books in
        let! firstBook_name := member (at_index nextTestament_books 0) book_name in
        Return (Some (mkCoordinate nextTestament_name firstBook_name 1))
      else Return None
  | prev =>
      if 1 <? chapter then
        Return (Some (mkCoordinate testament book (chapter - 1)))
      else if 0 <? currentBookIndex then
        let prevBook := at_index currentTestament_books (currentBookIndex - 1) in
        let! prevBook_name := member prevBook book_name in
        let! prevBook_chapters := member prevBook book_chapters in
        Return (Some (mkCoordinate testament prevBook_name (len prevBook_chapters)))
      else if 0 <? currentTestamentIndex then
        let prevTestament := at_index bibleData (currentTestamentIndex - 1) in
        let! prevTestament_books := member prevTestament testament_books in
        let lastBook := at_index prevTestament_books (len prevTestament_books - 1) in
        let! prevTestament_name := member prevTestament testament_name in
        let! lastBook_name := member lastBook book_name in
        let! lastBook_chapters := member lastBook book_chapters in
        Return (Some (mkCoordinate prevTestament_name lastBook_name (len lastBook_chapters)))
      else Return None
  end.

End Navigator.

(** ** Tabs and session state *)

Inductive SearchMode := partial | exact.

Inductive TabType := navigation | search_input | verse | search_results.

(** A value of type [number | null | undefined], as [highlightedVerse] is. *)
Inductive JsOptNumber :=
| js_undefined
| js_null
| js_number (n : Z).

(** Truthiness of such a value: [undefined], [null] and [0] are falsy. *)
Definition truthy (v : JsOptNumber) : bool :=
  match v with
  | js_number n => negb (n =? 0)
  | _ => false
  end.

(** Modelled from the spec: the element type of the list [searchBible]
    returns, which lives in the absent [./utils/arabicUtils]; the spec
    gives a hit as a coordinate, a verse number and the verse text. *)
Record SearchResult := mkSearchResult {
  result_testament : string;
  result_book : string;
  result_chapter : Z;
  result_verse : Z;
  result_text : string
}.

(** The three shapes of [content] that the component builds: [{}], the
    content of a reading view, and the content of a result list. *)
Inductive TabContent :=
| ContentEmpty
| ContentVerse (testament book : string) (chapter : Z) (verses : list Verse)
    (highlightedVerse : JsOptNumber) (searchQuery : option string)
| ContentSearch (searchQuery : string) (searchResults : list SearchResult).

Record SearchOptions := mkSearchOptions {
  options_searchMode : SearchMode
}.

Record Tab := mkTab {
  tab_id : string;
  tab_type : TabType;
  tab_title : string;
  tab_content : TabContent;
  tab_searchOptions : option SearchOptions;
  tab_isCollapsed : bool
}.

(** [{ ...tab, isCollapsed: c }] *)
Definition with_isCollapsed (c : bool) (tab : Tab) : Tab :=
  mkTab (tab_id tab) (tab_type tab) (tab_title tab) (tab_content tab)
        (tab_searchOptions tab) c.

(** [{ ...tab, title, content }] *)
Definition with_title_content (title : string) (content : TabContent) (tab : Tab) : Tab :=
  mkTab (tab_id tab) (tab_type tab) title content
        (tab_searchOptions tab) (tab_isCollapsed tab).

(** The fields of a persisted history record that [handleHistoryItemClick]
    reads, typed as the parameters they are passed to. *)
Record HistoryEntry := mkHistoryEntry {
  entry_type : TabType;
  entry_testament : string;
  entry_book : string;
  entry_chapter : Z;
  entry_highlightedVerse : JsOptNumber;
  entry_searchQuery : string;
  entry_searchOptions : option SearchOptions
}.

(** The [useState] cells of [App] that make up the session (font settings
    and the dark-mode flag, which no handler below reads, are left out). *)
Record State := mkState {
  searchQuery : string;
  searchMode : SearchMode;
  selectedTestament : option string;
  selectedBook : option string;
  selectedChapter : option Z;
  tabs : list Tab;
  activeTabId : string;
  scrollPositions : gmap string Z
}.

(** The state setters.  [setTabs] and [setScrollPositionsWith] take an
    updater, which React applies to the pending value. *)
Definition setSearchQuery (v : string) (p : State) : State :=
  mkState v (searchMode p) (selectedTestament p) (selectedBook p)
          (selectedChapter p) (tabs p) (activeTabId p) (scrollPositions p).

Definition setSearchMode (v : SearchMode) (p : State) : State :=
  mkState (searchQuery p) v (selectedTestament p) (selectedBook p)
          (selectedChapter p) (tabs p) (activeTabId p) (scrollPositions p).

Definition setSelectedTestament (v : option string) (p : State) : State :=
  mkState (searchQuery p) (searchMode p) v (selectedBook p)
          (selectedChapter p) (tabs p) (activeTabId p) (scrollPositions p).

Definition setSelectedBook (v : option string) (p : State) : State :=
  mkState (searchQuery p) (searchMode p) (selectedTestament p) v
          (selectedChapter p) (tabs p) (activeTabId p) (scrollPositions p).

Definition setSelectedChapter (v : option Z) (p : State) : State :=
  mkState (searchQuery p) (searchMode p) (selectedTestament p) (selectedBook p)
          v (tabs p) (activeTabId p) (scrollPositions p).

Definition setTabs (f : list Tab -> list Tab) (p : State) : State :=
  mkState (searchQuery p) (searchMode p) (selectedTestament p) (selectedBook p)
          (selectedChapter p) (f (tabs p)) (activeTabId p) (scrollPositions p).

Definition setActiveTabId (v : string) (p : State) : State :=
  mkState (searchQuery p) (searchMode p) (selectedTestament p) (selectedBook p)
          (selectedChapter p) (tabs p) v (scrollPositions p).

Definition setScrollPositionsWith (f : gmap string Z -> gmap string Z) (p : State) : State :=
  mkState (searchQuery p) (searchMode p) (selectedTestament p) (selectedBook p)
          (selectedChapter p) (tabs p) (activeTabId p) (f (scrollPositions p)).

Definition setScrollPositions (v : gmap string Z) (p : State) : State :=
  setScrollPositionsWith (fun _ => v) p.

(** ** The handlers of [App]

    Every handler is a closure made by one render.  The state variables it
    reads ([searchMode], [tabs], [activeTabId], ...) are the values of that
    render, the argument [r] below; a setter call does not change them, it
    queues an update of the pending state [p], which the next render shows.
    A handler that calls another one passes its pending state on, the
    callee being a closure of the same render.  [now] stands for the value
    of [Date.now()]. *)

Section App.

(** The corpus imported from [./data/bible.json]. *)
Variable bibleData : list Testament.

(** [searchBible] of the absent [./utils/arabicUtils]. *)
Variable searchBible : string -> list Testament -> SearchMode -> list SearchResult.

(** The lookup both [handleVerseSelection] and [handleChapterNavigation]
    spell out:
    [bibleData.find(..)?.books.find(..)?.chapters.find(..)?.verses || []]. *)
Definition lookupVerses (testament book : string) (chapter : Z) : list Verse :=
  default []
    (t ← List.find (fun t => String.eqb (testament_name t) testament) bibleData;
     b ← List.find (fun b => String.eqb (book_name b) book) (testament_books t);
     c ← List.find (fun c => chapter_number c =? chapter) (book_chapters b);
     Some (chapter_verses c)).

Definition handleSearch (r : State) (now : Z) (query : string) (p : State) : State :=
  let p := setSearchQuery query p in
  if String.eqb query "" then p
  else
    let results := searchBible query bibleData (searchMode r) in
    let searchTab :=
      mkTab ("search-results-" +:+ pretty now)
            search_results
            ("نتائج: " +:+ query)
            (ContentSearch query results)
            (Some (mkSearchOptions (searchMode r)))
            false in
    let p := setTabs (fun prevTabs => (prevTabs ++ [searchTab])) p in
    setActiveTabId (tab_id searchTab) p.

Definition handleChapterNavigation (r : State) (testament book : string)
    (chapter : Z) (direction : Direction) (p : State) : completion State :=
  let! adjacentChapter :=
    findAdjacentChapter bibleData testament book chapter direction in
  match adjacentChapter with
  | Some adjacentChapter =>
      let verses :=
        lookupVerses (coord_testament adjacentChapter)
                     (coord_book adjacentChapter)
                     (coord_chapter adjacentChapter) in
      if len verses =? 0 then Return p
      else
        let p :=
          setTabs (fun prevTabs =>
            map (fun tab =>
              if String.eqb (tab_id tab) (activeTabId r) then
                with_title_content
                  (coord_book adjacentChapter +:+ " "
                     +:+ pretty (coord_chapter adjacentChapter))
                  (ContentVerse (coord_testament adjacentChapter)
                                (coord_book adjacentChapter)
                                (coord_chapter adjacentChapter)
                                verses js_null None)
                  tab
              else tab) prevTabs) p in
        let p := setSelectedTestament (Some (coord_testament adjacentChapter)) p in
        let p := setSelectedBook (Some (coord_book adjacentChapter)) p in
        Return (setSelectedChapter (Some (coord_chapter adjacentChapter)) p)
  | None => Return p
  end.

Definition handleVerseSelection (r : State) (now : Z) (testament book : string)
    (chapter : Z) (highlightedVerse : JsOptNumber) (p : State) : State :=
  let verses := lookupVerses testament book chapter in
  if len verses =? 0 then p
  else
    let verseTab :=
      mkTab ("verse-" +:+ testament +:+ "-" +:+ book +:+ "-"
               +:+ pretty chapter +:+ "-" +:+ pretty now)
            verse
            (book +:+ " " +:+ pretty chapter)
            (ContentVerse testament book chapter verses highlightedVerse
               (if truthy highlightedVerse then Some (searchQuery r) else None))
            None
            false in
    let p := setTabs (fun prevTabs => (map (with_isCollapsed false) prevTabs ++ [verseTab])) p in
    setActiveTabId (tab_id verseTab) p.

Definition handleHistoryItemClick (r : State) (now : Z) (historyEntry : HistoryEntry)
    (p : State) : State :=
  match entry_type historyEntry with
  | verse =>
      handleVerseSelection r now
        (entry_testament historyEntry) (entry_book historyEntry)
        (entry_chapter historyEntry) (entry_highlightedVerse historyEntry) p
  | search_results =>
      let p :=
        match entry_searchOptions historyEntry with
        | Some searchOptions => setSearchMode (options_searchMode searchOptions) p
        | None => p
        end in
      let p := setSearchQuery (entry_searchQuery historyEntry) p in
      handleSearch r now (entry_searchQuery historyEntry) p
  | _ => p
  end.

(** [tab?.type === 'navigation' || tab?.type === 'search-input'] *)
Definition isPermanent (tab : option Tab) : bool :=
  match tab with
  | Some t =>
      match tab_type t with
      | navigation | search_input => true
      | _ => false
      end
  | None => false
  end.

Definition handleTabClose (r : State) (tabId : string) (p : State) : completion State :=
  let tab := List.find (fun t => String.eqb (tab_id t) tabId) (tabs r) in
  if isPermanent tab then Return p
  else
    let p :=
      setTabs (fun prevTabs =>
        List.filter (fun tab => negb (String.eqb (tab_id tab) tabId)) prevTabs) p in
    let! p :=
      if String.eqb (activeTabId r) tabId then
        let remainingTabs :=
          List.filter (fun tab => negb (String.eqb (tab_id tab) tabId)) (tabs r) in
        if 0 <? len remainingTabs then
          let! lastId :=
            member (at_index remainingTabs (len remainingTabs - 1)) tab_id in
          Return (setActiveTabId lastId p)
        else Return p
      else Return p in
    let newPositions := delete tabId (scrollPositions r) in
    Return (setScrollPositions newPositions p).

Definition handleTabClick (r : State) (tabId : string) (p : State) : State :=
  if String.eqb (activeTabId r) tabId then p
  else setActiveTabId tabId p.

Definition handleScroll (r : State) (tabId : string) (position : Z) (p : State) : State :=
  setScrollPositionsWith (fun prevPositions => <[tabId := position]> prevPositions) p.

(** *** Mounting *)

(** The values the [useState] calls start from; [savedPositions] is what
    [getScrollPositions()] returns. *)
Definition initialState (savedPositions : gmap string Z) : State :=
  mkState "" partial None None None [] "" savedPositions.

Definition navigationTab : Tab :=
  mkTab "navigation" navigation "الكتب" ContentEmpty None false.

Definition searchTab : Tab :=
  mkTab "search" search_input "البحث" ContentEmpty None false.

(** The mount effect; [lastTab] is what [getLastTab()] returns. *)
Definition mountEffect (lastTab : option Tab) (p : State) : completion State :=
  let firstTestament := at_index bibleData 0 in
  let! firstTestament_books := member firstTestament testament_books in
  let firstBook := at_index firstTestament_books 0 in
  let! firstBook_chapters := member firstBook book_chapters in
  let firstChapter := at_index firstBook_chapters 0 in
  let! initialTab :=
    match lastTab with
    | Some tab => Return tab
    | None =>
        let! firstTestament_name := member firstTestament testament_name in
        let! firstBook_name := member firstBook book_name in
        let! firstChapter_number := member firstChapter chapter_number in
        let! firstChapter_verses := member firstChapter chapter_verses in
        Return
          (mkTab ("verse-" +:+ firstTestament_name +:+ "-" +:+ firstBook_name
                    +:+ "-" +:+ pretty firstChapter_number +:+ "-initial")
                 verse
                 (firstBook_name +:+ " " +:+ pretty firstChapter_number)
                 (ContentVerse firstTestament_name firstBook_name
                    firstChapter_number firstChapter_verses js_null None)
                 None
                 false)
    end in
  let p := setTabs (fun _ => [navigationTab; searchTab; initialTab]) p in
  let p := setActiveTabId (tab_id initialTab) p in
  let! firstTestament_name := member firstTestament testament_name in
  let p := setSelectedTestament (Some firstTestament_name) p in
  let! firstBook_name := member firstBook book_name in
  let p := setSelectedBook (Some firstBook_name) p in
  let! firstChapter_number := member firstChapter chapter_number in
  Return (setSelectedChapter (Some firstChapter_number) p).

(** *** One user action after another *)

(** The callbacks [App] hands to its children. *)
Inductive Event :=
| Search (now : Z) (query : string)
| ChapterNavigate (testament book : string) (chapter : Z) (direction : Direction)
| VerseSelect (now : Z) (testament book : string) (chapter : Z)
    (highlightedVerse : JsOptNumber)
| HistoryItemClick (now : Z) (historyEntry : HistoryEntry)
| TabClose (tabId : string)
| TabClick (tabId : string)
| Scroll (tabId : string) (position : Z)
| SearchChange (value : string)
| SearchModeChange (mode : SearchMode)
| TestamentSelect (name : option string)
| BookSelect (name : option string).

(** What the next render sees: the pending state of a handler that
    returned, the state as it was when the handler threw (the handlers
    that can throw do so before any setter call). *)
Definition settle (s : State) (c : completion State) : State :=
  match c with
  | Return s' => s'
  | Throw _ => s
  end.

(** One event: the handler of the current render runs on the current
    state. *)
Definition dispatch (s : State) (e : Event) : State :=
  match e with
  | Search now query => handleSearch s now query s
  | ChapterNavigate testament book chapter direction =>
      settle s (handleChapterNavigation s testament book chapter direction s)
  | VerseSelect now testament book chapter highlightedVerse =>
      handleVerseSelection s now testament book chapter highlightedVerse s
  | HistoryItemClick now historyEntry => handleHistoryItemClick s now historyEntry s
  | TabClose tabId => settle s (handleTabClose s tabId s)
  | TabClick tabId => handleTabClick s tabId s
  | Scroll tabId position => handleScroll s tabId position s
  | SearchChange value => setSearchQuery value s
  | SearchModeChange mode => setSearchMode mode s
  | TestamentSelect name => setSelectedTestament name s
  | BookSelect name => setSelectedBook name s
  end.

Definition run (s : State) (events : list Event) : State :=
  fold_left dispatch events s.

End App.

(** The two-testament corpus of the specification's example. *)
Definition exampleCorpus : list Testament :=
  [ mkTestament "A"
      [ mkBook "Genesis"
          [ mkChapter 1 [mkVerse 1 "v1"; mkVerse 2 "v2"];
            mkChapter 2 [mkVerse 1 "w1"] ] ];
    mkTestament "B"
      [ mkBook "Exodus" [ mkChapter 1 [mkVerse 1 "x1"] ] ] ].

(** ** The data-model invariants

    Every list is non-empty, chapters and verses are numbered from one
    without gaps, and a name is an identifier: no two testaments share
    one, nor do two books of one testament. *)

Definition numbered {A} (number : A -> Z) (l : list A) : Prop :=
  map number l = map Z.of_nat (seq 1 (length l)).

Definition chapter_ok (c : Chapter) : Prop :=
  0 < len (chapter_verses c) /\ numbered verse_number (chapter_verses c).

Definition book_ok (b : Book) : Prop :=
  0 < len (book_chapters b)
  /\ numbered chapter_number (book_chapters b)
  /\ Forall chapter_ok (book_chapters b).

Definition testament_ok (t : Testament) : Prop :=
  0 < len (testament_books t)
  /\ NoDup (map book_name (testament_books t))
  /\ Forall book_ok (testament_books t).

Definition corpus_ok (d : list Testament) : Prop :=
  0 < len d /\ NoDup (map testament_name d) /\ Forall testament_ok d.

(** A coordinate is valid when its names and number resolve: some
    testament bears the name, one of its books bears the book name, and
    one of that book's chapters bears the number. *)
Definition valid_coordinate (d : list Testament) (testament book : string)
    (chapter : Z) : Prop :=
  Exists (fun t => testament_name t = testament /\
    Exists (fun b => book_name b = book /\
      Exists (fun c => chapter_number c = chapter) (book_chapters b))
      (testament_books t)) d.

#[global] Instance numbered_dec {A} (number : A -> Z) l : Decision (numbered number l).
Proof. unfold numbered. apply _. Defined.
#[global] Instance chapter_ok_dec c : Decision (chapter_ok c).
Proof. unfold chapter_ok. apply _. Defined.
#[global] Instance book_ok_dec b : Decision (book_ok b).
Proof. unfold book_ok. apply _. Defined.
#[global] Instance testament_ok_dec t : Decision (testament_ok t).
Proof. unfold testament_ok. apply _. Defined.
#[global] Instance corpus_ok_dec d : Decision (corpus_ok d).
Proof. unfold corpus_ok. apply _. Defined.
#[global] Instance valid_coordinate_dec d t b c : Decision (valid_coordinate d t b c).
Proof. unfold valid_coordinate. apply _. Defined.

(** ** The navigator as the specification words it

    The corpus is cut at the testament the coordinate names, that
    testament at the book it names; what follows and what precedes the
    cut decide the answer. *)

(** The tests by name that the lookups apply: [t => t.name === testament]
    and [b => b.name === book]. *)
Definition byTestament (testament : string) (t : Testament) : bool :=
  String.eqb (testament_name t) testament.

Definition byBook (book : string) (b : Book) : bool :=
  String.eqb (book_name b) book.

(** The first element that satisfies [p], with what precedes it and what
    follows it. *)
Fixpoint split_first {A} (p : A -> bool) (l : list A) : option (list A * A * list A) :=
  match l with
  | [] => None
  | x :: l' =>
      if p x then Some ([], x, l')
      else
        match split_first p l' with
        | Some (before, y, after) => Some (x :: before, y, after)
        | None => None
        end
  end.

Definition spec_next (testament book : string) (chapter : Z)
    (current : Book) (booksAfter : list Book) (testamentsAfter : list Testament)
    : option Coordinate :=
  if chapter <? len (book_chapters current) then
    Some (mkCoordinate testament book (chapter + 1))
  else
    match booksAfter with
    | nextBook :: _ => Some (mkCoordinate testament (book_name nextBook) 1)
    | [] =>
        match testamentsAfter with
        | nextTestament :: _ =>
            match testament_books nextTestament with
            | firstBook :: _ =>
                Some (mkCoordinate (testament_name nextTestament) (book_name firstBook) 1)
            | [] => None
            end
        | [] => None
        end
    end.

Definition spec_prev (testament book : string) (chapter : Z)
    (booksBefore : list Book) (testamentsBefore : list Testament)
    : option Coordinate :=
  if 1 <? chapter then
    Some (mkCoordinate testament book (chapter - 1))
  else
    match last booksBefore with
    | Some prevBook =>
        Some (mkCoordinate testament (book_name prevBook) (len (book_chapters prevBook)))
    | None =>
        match last testamentsBefore with
        | Some prevTestament =>
            match last (testament_books prevTestament) with
            | Some lastBook =>
                Some (mkCoordinate (testament_name prevTestament) (book_name lastBook)
                        (len (book_chapters lastBook)))
            | None => None
            end
        | None => None
        end
    end.

Definition spec_adjacentChapter (d : list Testament) (testament book : string)
    (chapter : Z) (direction : Direction) : option Coordinate :=
  match split_first (byTestament testament) d with
  | Some (testamentsBefore, t, testamentsAfter) =>
      match split_first (byBook book) (testament_books t) with
      | Some (booksBefore, b, booksAfter) =>
          match direction with
          | next => spec_next testament book chapter b booksAfter testamentsAfter
          | prev => spec_prev testament book chapter booksBefore testamentsBefore
          end
      | None => None
      end
  | None => None
  end.

(** ** Sessions

    A session starts when the mount effect has run; from then on the user
    acts, one event at a time. *)

Section Sessions.
Variable bibleData : list Testament.
Variable searchBible : string -> list Testament -> SearchMode -> list SearchResult.

(** The sessions that the events allowed by [permitted] lead to. *)
Inductive reachable_via (permitted : State -> Event -> Prop) : State -> Prop :=
| reachable_mount lastTab savedPositions s :
    mountEffect bibleData lastTab (initialState savedPositions) = Return s ->
    reachable_via permitted s
| reachable_step s e :
    reachable_via permitted s -> permitted s e ->
    reachable_via permitted (dispatch bibleData searchBible s e).

(** Any event at all. *)
Definition reachable : State -> Prop := reachable_via (fun _ _ => True).

(** The tab strip offers only the tabs it shows: a click carries the id
    of a tab of the session. *)
Definition click_on_shown_tab (s : State) (e : Event) : Prop :=
  match e with
  | TabClick tabId => tabId ∈ map tab_id (tabs s)
  | _ => True
  end.

Definition reachable_by_shown_tabs : State -> Prop :=
  reachable_via click_on_shown_tab.

End Sessions.

(** The two permanent tabs head the tab list. *)
Definition permanent_first (s : State) : Prop :=
  exists nav search rest,
    tabs s = nav :: search :: rest
    /\ tab_id nav = "navigation" /\ tab_type nav = navigation
    /\ tab_id search = "search" /\ tab_type search = search_input.

(** [activeTabId] names a tab of the session. *)
Definition active_shown (s : State) : Prop :=
  activeTabId s ∈ map tab_id (tabs s).

(** How an update in place relates a tab to what it was: id, kind,
    collapsed flag and search options stay, and a tab that does not bear
    the id [active] stays whole. *)
Definition in_place (active : string) (old new : Tab) : Prop :=
  tab_id new = tab_id old
  /\ tab_type new = tab_type old
  /\ tab_isCollapsed new = tab_isCollapsed old
  /\ tab_searchOptions new = tab_searchOptions old
  /\ (tab_id old <> active -> new = old).

(** The kind of the tab that [activeTabId] resolves to. *)
Definition activeTabType (s : State) : option TabType :=
  tab_type <$> List.find (fun t => String.eqb (tab_id t) (activeTabId s)) (tabs s).

(** The tab list after a navigation that found [adjacentChapter] with
    [verses]: the tabs that bear the active id get a new title and
    payload. *)
Definition navigatedTabs (active : string) (adjacentChapter : Coordinate)
    (verses : list Verse) (prevTabs : list Tab) : list Tab :=
  map (fun tab =>
         if String.eqb (tab_id tab) active then
           with_title_content
             (coord_book adjacentChapter +:+ " " +:+ pretty (coord_chapter adjacentChapter))
             (ContentVerse (coord_testament adjacentChapter) (coord_book adjacentChapter)
                (coord_chapter adjacentChapter) verses js_null None)
             tab
         else tab) prevTabs.

#[global] Instance TabType_eq_dec : EqDecision TabType.
Proof. solve_decision. Defined.

(** [tabs.filter(tab => tab.id !== tabId)] *)
Definition remainingTabs (tabId : string) (l : list Tab) : list Tab :=
  List.filter (fun tab => negb (String.eqb (tab_id tab) tabId)) l.

(** What every handler but [handleTabClose] and [handleTabClick] does to
    the tab list and the active id: the tabs already open keep their place,
    id and kind, tabs may be appended, and [activeTabId] either stays or
    names an appended tab. *)
Definition grows (s s' : State) : Prop :=
  exists kept appended,
    tabs s' = kept ++ appended
    /\ map tab_id kept = map tab_id (tabs s)
    /\ map tab_type kept = map tab_type (tabs s)
    /\ (activeTabId s' = activeTabId s \/ activeTabId s' ∈ map tab_id appended).

(** One navigation call after another. *)
Definition navigationEvents (calls : list (string * string * Z * Direction)) : list Event :=
  map (fun call =>
         match call with
         | (testament, book, chapter, direction) =>
             ChapterNavigate testament book chapter direction
         end) calls.

(** A testament in which two books share a name, which the data model
    rules out. *)
Definition twoBooksOneName : list Testament :=
  [ mkTestament "A"
      [ mkBook "X" [ mkChapter 1 [mkVerse 1 "a"] ];
        mkBook "Y" [ mkChapter 1 [mkVerse 1 "b"] ];
        mkBook "X" [ mkChapter 1 [mkVerse 1 "c"] ] ] ].

(** The session a fresh start on the example corpus gives. *)
Definition sampleSession : State :=
  settle (initialState ∅) (mountEffect exampleCorpus None (initialState ∅)).

(** A search engine that finds nothing, for the examples that need one. *)
Definition noSearch (query : string) (d : list Testament) (mode : SearchMode)
    : list SearchResult := [].

(** The sample session after a search for ["x"]: the result tab is active. *)
Definition searchSession : State :=
  handleSearch exampleCorpus noSearch sampleSession 5 "x" sampleSession.

(** A history record of a search for ["x"] made in exact mode. *)
Definition exactSearchEntry : HistoryEntry :=
  mkHistoryEntry search_results "" "" 0 js_undefined "x" (Some (mkSearchOptions exact)).

(** ** Reading order

    The coordinates of all chapters, testament after testament, book
    after book, chapter after chapter; a chapter is counted by its place
    in its book, as the navigator counts it. *)

Definition chaptersOf (t : Testament) (b : Book) : list Coordinate :=
  map (fun i => mkCoordinate (testament_name t) (book_name b) (Z.of_nat i))
      (seq 1 (length (book_chapters b))).

Definition chaptersOfTestament (t : Testament) : list Coordinate :=
  flat_map (chaptersOf t) (testament_books t).

Definition corpusOrder (d : list Testament) : list Coordinate :=
  flat_map chaptersOfTestament d.

(** Pressing [next] up to [steps] times, starting at [c]: the coordinates
    passed, [c] first; the walk ends where the navigator returns [null] or
    throws. *)
Fixpoint readOn (d : list Testament) (steps : nat) (c : Coordinate) : list Coordinate :=
  c :: match steps with
       | O => []
       | S steps' =>
           match findAdjacentChapter d (coord_testament c) (coord_book c)
                   (coord_chapter c) next with
           | Return (Some c') => readOn d steps' c'
           | _ => []
           end
       end.

(** ** Sequences of searches *)

(** The tab [handleSearch] builds at time [now] for [query] when the
    render's mode is [mode]. *)
Definition searchResultsTab (d : list Testament)
    (searchBible : string -> list Testament -> SearchMode -> list SearchResult)
    (mode : SearchMode) (search : Z * string) : Tab :=
  mkTab ("search-results-" +:+ pretty (fst search))
        search_results
        ("نتائج: " +:+ snd search)
        (ContentSearch (snd search) (searchBible (snd search) d mode))
        (Some (mkSearchOptions mode))
        false.

(** One search after another, each with its time and its query. *)
Definition searchEvents (searches : list (Z * string)) : list Event :=
  map (fun search => Search (fst search) (snd search)) searches.

(** No tab of the session is marked collapsed. *)
Definition uncollapsed (s : State) : Prop :=
  Forall (fun tab => tab_isCollapsed tab = false) (tabs s).

(** The tab the mount effect opens when there is no last tab to restore. *)
Definition firstChapterTab (T : Testament) (B : Book) (C : Chapter) : Tab :=
  mkTab ("verse-" +:+ testament_name T +:+ "-" +:+ book_name B
           +:+ "-" +:+ pretty (chapter_number C) +:+ "-initial")
        verse
        (book_name B +:+ " " +:+ pretty (chapter_number C))
        (ContentVerse (testament_name T) (book_name B) (chapter_number C)
           (chapter_verses C) js_null None)
        None
        false.

(** The integers from [Number.MIN_SAFE_INTEGER] to
    [Number.MAX_SAFE_INTEGER]: for such an [n] the JavaScript numbers
    [n + 1] and [n - 1] are the integers they name, computed exactly. *)
Definition safe_integer (n : Z) : Prop :=
  -9007199254740991 <= n <= 9007199254740991.

(** ** Arrays: [findIndex], indexing and [length] *)

Section Arrays.
Context {A : Type}.
Implicit Types (p : A -> bool) (l : list A).

Lemma len_nonneg l : 0 <= len l.
Proof. unfold len. lia. Qed.

Lemma len_app l1 l2 : len (l1 ++ l2) = len l1 + len l2.
Proof. unfold len. rewrite length_app. lia. Qed.

Lemma len_cons x l : len (x :: l) = len l + 1.
Proof. unfold len. simpl. lia. Qed.

Lemma findIndex_from_first p l1 x l2 i :
  Forall (fun y => p y = false) l1 -> p x = true ->
  findIndex_from p (l1 ++ x :: l2) i = i + len l1.
Proof.
  intros Hl1 Hx. revert i.
  induction Hl1 as [|y l1 Hy _ IH]; intros i; simpl.
  - rewrite Hx. unfold len. simpl. lia.
  - rewrite Hy, IH, len_cons. lia.
Qed.

Lemma findIndex_first p l1 x l2 :
  Forall (fun y => p y = false) l1 -> p x = true ->
  findIndex p (l1 ++ x :: l2) = len l1.
Proof. intros. unfold findIndex. rewrite findIndex_from_first by assumption. lia. Qed.

Lemma findIndex_from_none p l i :
  Forall (fun y => p y = false) l -> findIndex_from p l i = -1.
Proof.
  intros Hl. revert i. induction Hl as [|y l Hy _ IH]; intros i; simpl.
  - reflexivity.
  - rewrite Hy. apply IH.
Qed.

Lemma findIndex_none p l :
  Forall (fun y => p y = false) l -> findIndex p l = -1.
Proof. apply findIndex_from_none. Qed.

Lemma findIndex_from_range p l i :
  findIndex_from p l i = -1 \/ i <= findIndex_from p l i < i + len l.
Proof.
  revert i. induction l as [|x l IH]; intros i; simpl.
  - left. reflexivity.
  - rewrite len_cons. pose proof (len_nonneg l). destruct (p x).
    + right. lia.
    + destruct (IH (i + 1)) as [->|?]; [left; reflexivity | right; lia].
Qed.

Lemma at_index_nat l (n : nat) : at_index l (Z.of_nat n) = l !! n.
Proof.
  unfold at_index. destruct (Z.ltb_spec (Z.of_nat n) 0); [lia|].
  rewrite Nat2Z.id. reflexivity.
Qed.

Lemma at_index_neg l i : i < 0 -> at_index l i = None.
Proof. intros. unfold at_index. destruct (Z.ltb_spec i 0); [reflexivity | lia]. Qed.

Lemma at_index_middle l1 x l2 : at_index (l1 ++ x :: l2) (len l1) = Some x.
Proof. unfold len. rewrite at_index_nat. apply list_lookup_middle. reflexivity. Qed.

Lemma at_index_after l1 x y l2 :
  at_index (l1 ++ x :: y :: l2) (len l1 + 1) = Some y.
Proof.
  replace (l1 ++ x :: y :: l2) with ((l1 ++ [x]) ++ y :: l2)
    by (rewrite <- app_assoc; reflexivity).
  replace (len l1 + 1) with (len (l1 ++ [x])) by (rewrite len_app; reflexivity).
  apply at_index_middle.
Qed.

Lemma at_index_last l : at_index l (len l - 1) = last l.
Proof.
  destruct l as [|x l] using rev_ind.
  - reflexivity.
  - rewrite len_app, last_snoc.
    replace (len l + len [x] - 1) with (len l) by (unfold len; simpl; lia).
    apply at_index_middle.
Qed.

Lemma at_index_before l1 x l2 :
  at_index (l1 ++ x :: l2) (len l1 - 1) = last l1.
Proof.
  destruct l1 as [|y l1] using rev_ind.
  - reflexivity.
  - rewrite last_snoc, len_app, <- app_assoc.
    replace (len l1 + len [y] - 1) with (len l1) by (unfold len; simpl; lia).
    apply at_index_middle.
Qed.

Lemma at_index_head l : at_index l 0 = head l.
Proof. destruct l; reflexivity. Qed.

Lemma split_first_spec p l l1 x l2 :
  split_first p l = Some (l1, x, l2) ->
  l = l1 ++ x :: l2 /\ Forall (fun y => p y = false) l1 /\ p x = true.
Proof.
  revert l1. induction l as [|y l IH]; intros l1; simpl; [discriminate|].
  destruct (p y) eqn:Hy.
  - intros [= <- <- <-]. auto.
  - destruct (split_first p l) as [[[b z] a]|]; [|discriminate].
    intros [= <- <- <-]. destruct (IH b eq_refl) as (-> & Hb & Hz).
    auto.
Qed.

Lemma split_first_app p l1 x l2 :
  Forall (fun y => p y = false) l1 -> p x = true ->
  split_first p (l1 ++ x :: l2) = Some (l1, x, l2).
Proof.
  intros Hl1 Hx. induction Hl1 as [|y l1 Hy _ IH]; simpl.
  - rewrite Hx. reflexivity.
  - rewrite Hy, IH. reflexivity.
Qed.

End Arrays.

(** ** The navigator at a known position *)

Section NavigatorAt.
Variable d : list Testament.
Variables (ts1 : list Testament) (T : Testament) (ts2 : list Testament).
Variables (bs1 : list Book) (B : Book) (bs2 : list Book).
Hypothesis Hd : d = ts1 ++ T :: ts2.
Hypothesis Hts1 : Forall (fun t => testament_name t <> testament_name T) ts1.
Hypothesis Hbooks : testament_books T = bs1 ++ B :: bs2.
Hypothesis Hbs1 : Forall (fun b => book_name b <> book_name B) bs1.

Lemma testament_index : findIndex (byTestament (testament_name T)) d = len ts1.
Proof.
  rewrite Hd. apply findIndex_first.
  - eapply Forall_impl; [exact Hts1|]. intros t Ht. apply String.eqb_neq, Ht.
  - apply String.eqb_refl.
Qed.

Lemma book_index : findIndex (byBook (book_name B)) (bs1 ++ B :: bs2) = len bs1.
Proof.
  apply findIndex_first.
  - eapply Forall_impl; [exact Hbs1|]. intros b Hb. apply String.eqb_neq, Hb.
  - apply String.eqb_refl.
Qed.

Lemma split_testament :
  split_first (byTestament (testament_name T)) d = Some (ts1, T, ts2).
Proof.
  rewrite Hd. apply split_first_app.
  - eapply Forall_impl; [exact Hts1|]. intros t Ht. apply String.eqb_neq, Ht.
  - apply String.eqb_refl.
Qed.

Lemma split_book :
  split_first (byBook (book_name B)) (testament_books T) = Some (bs1, B, bs2).
Proof.
  rewrite Hbooks. apply split_first_app.
  - eapply Forall_impl; [exact Hbs1|]. intros b Hb. apply String.eqb_neq, Hb.
  - apply String.eqb_refl.
Qed.

(** What the code returns for [next], read off the position. *)
Lemma findAdjacentChapter_next_at chapter :
  findAdjacentChapter d (testament_name T) (book_name B) chapter next =
    if chapter <? len (book_chapters B) then
      Return (Some (mkCoordinate (testament_name T) (book_name B) (chapter + 1)))
    else
      match bs2 with
      | nextBook :: _ =>
          Return (Some (mkCoordinate (testament_name T) (book_name nextBook) 1))
      | [] =>
          match ts2 with
          | nextTestament :: _ =>
              match testament_books nextTestament with
              | firstBook :: _ =>
                  Return (Some (mkCoordinate (testament_name nextTestament)
                                  (book_name firstBook) 1))
              | [] => Throw TypeError
              end
          | [] => Return None
          end
      end.
Proof.
  unfold findAdjacentChapter. fold (byTestament (testament_name T)). rewrite testament_index.
  rewrite Hd at 1. rewrite at_index_middle. simpl.
  rewrite Hbooks. fold (byBook (book_name B)). rewrite book_index, at_index_middle. simpl.
  destruct (chapter <? len (book_chapters B)); [reflexivity|].
  destruct bs2 as [|nextBook bs2'].
  - rewrite len_app, len_cons.
    destruct (Z.ltb_spec (len bs1) (len bs1 + (len (@nil Book) + 1) - 1));
      [unfold len in *; simpl in *; lia|].
    rewrite Hd, len_app, len_cons.
    destruct ts2 as [|nextTestament ts2'].
    + destruct (Z.ltb_spec (len ts1) (len ts1 + (len (@nil Testament) + 1) - 1));
        [unfold len in *; simpl in *; lia | reflexivity].
    + pose proof (len_nonneg ts2').
      destruct (Z.ltb_spec (len ts1) (len ts1 + (len (nextTestament :: ts2') + 1) - 1));
        [|rewrite len_cons in *; lia].
      rewrite at_index_after. simpl. rewrite at_index_head.
      destruct (testament_books nextTestament); reflexivity.
  - pose proof (len_nonneg bs2').
    rewrite len_app, !len_cons.
    destruct (Z.ltb_spec (len bs1) (len bs1 + (len bs2' + 1 + 1) - 1)); [|lia].
    rewrite at_index_after. reflexivity.
Qed.

(** What the code returns for [prev], read off the position. *)
Lemma findAdjacentChapter_prev_at chapter :
  findAdjacentChapter d (testament_name T) (book_name B) chapter prev =
    if 1 <? chapter then
      Return (Some (mkCoordinate (testament_name T) (book_name B) (chapter - 1)))
    else
      match last bs1 with
      | Some prevBook =>
          Return (Some (mkCoordinate (testament_name T) (book_name prevBook)
                          (len (book_chapters prevBook))))
      | None =>
          match last ts1 with
          | Some prevTestament =>
              match last (testament_books prevTestament) with
              | Some lastBook =>
                  Return (Some (mkCoordinate (testament_name prevTestament)
                                  (book_name lastBook) (len (book_chapters lastBook))))
              | None => Throw TypeError
              end
          | None => Return None
          end
      end.
Proof.
  unfold findAdjacentChapter. fold (byTestament (testament_name T)). rewrite testament_index.
  rewrite Hd at 1. rewrite at_index_middle. simpl.
  rewrite Hbooks. fold (byBook (book_name B)). rewrite book_index.
  destruct (1 <? chapter); [reflexivity|].
  destruct bs1 as [|b0 bs1'] using rev_ind.
  - change (len (@nil Book)) with 0. simpl.
    rewrite Hd. destruct ts1 as [|t0 ts1'] using rev_ind.
    + reflexivity.
    + pose proof (len_nonneg ts1').
      rewrite last_snoc, len_app.
      destruct (Z.ltb_spec 0 (len ts1' + len [t0])); [|unfold len in *; simpl in *; lia].
      rewrite <- len_app, at_index_before, last_snoc. simpl.
      rewrite at_index_last.
      destruct (last (testament_books t0)); reflexivity.
  - pose proof (len_nonneg bs1').
    rewrite last_snoc.
    destruct (Z.ltb_spec 0 (len (bs1' ++ [b0])));
      [|rewrite len_app in *; unfold len in *; simpl in *; lia].
    rewrite at_index_before, last_snoc. reflexivity.
Qed.

End NavigatorAt.

(** ** Valid coordinates have a position *)

Lemma NoDup_map_split {A} (f : A -> string) (l1 : list A) (x : A) (l2 : list A) :
  NoDup (map f (l1 ++ x :: l2)) ->
  Forall (fun y => f y <> f x) l1 /\ Forall (fun y => f y <> f x) l2.
Proof.
  rewrite map_app. simpl. intros H.
  apply NoDup_app in H as (_ & Hdisj & Hr).
  apply NoDup_cons in Hr as (Hx & _).
  split; apply Forall_forall; intros y Hy Heq.
  - apply (Hdisj (f y)).
    + apply list_elem_of_In, in_map, list_elem_of_In, Hy.
    + rewrite Heq. left.
  - apply Hx. rewrite <- Heq.
    apply list_elem_of_In, in_map, list_elem_of_In, Hy.
Qed.

Lemma numbered_lookup {A} (number : A -> Z) (l : list A) (i : nat) (x : A) :
  numbered number l -> l !! i = Some x -> number x = Z.of_nat i + 1.
Proof.
  unfold numbered. intros Hn Hx.
  assert (Hi : (i < length l)%nat) by (eapply lookup_lt_Some; exact Hx).
  assert (H1 : map number l !! i = Some (number x)).
  { change (map number l) with (number <$> l). rewrite list_lookup_fmap, Hx. reflexivity. }
  rewrite Hn in H1.
  change (map Z.of_nat (seq 1 (length l))) with (Z.of_nat <$> seq 1 (length l)) in H1.
  rewrite list_lookup_fmap in H1.
  rewrite (lookup_seq_lt 1 (length l) i Hi) in H1. simpl in H1.
  injection H1 as <-. lia.
Qed.

Lemma numbered_range {A} (number : A -> Z) (l : list A) (x : A) :
  numbered number l -> x ∈ l -> 1 <= number x <= len l.
Proof.
  intros Hn Hx. apply list_elem_of_lookup in Hx as [i Hi].
  pose proof (lookup_lt_Some _ _ _ Hi).
  rewrite (numbered_lookup number l i x Hn Hi). unfold len. lia.
Qed.

Lemma valid_position d testament book chapter :
  corpus_ok d -> valid_coordinate d testament book chapter ->
  exists ts1 T ts2 bs1 B bs2,
    d = ts1 ++ T :: ts2 /\ testament_name T = testament /\
    Forall (fun t => testament_name t <> testament_name T) ts1 /\
    Forall (fun t => testament_name t <> testament_name T) ts2 /\
    testament_books T = bs1 ++ B :: bs2 /\ book_name B = book /\
    Forall (fun b => book_name b <> book_name B) bs1 /\
    Forall (fun b => book_name b <> book_name B) bs2 /\
    1 <= chapter <= len (book_chapters B).
Proof.
  intros (_ & Hnd & Hall) Hv.
  apply Exists_exists in Hv as (T & HT & Hname & Hv).
  apply Exists_exists in Hv as (B & HB & Hbname & Hv).
  apply Exists_exists in Hv as (C & HC & Hnum).
  apply list_elem_of_split in HT as (ts1 & ts2 & ->).
  assert (Hok : testament_ok T).
  { rewrite Forall_forall in Hall. apply Hall. apply elem_of_app. right. left. }
  destruct Hok as (_ & Hbnd & Hball).
  assert (Hbok : book_ok B) by (rewrite Forall_forall in Hball; apply Hball, HB).
  apply list_elem_of_split in HB as (bs1 & bs2 & HB).
  rewrite HB in Hbnd.
  destruct (NoDup_map_split _ _ _ _ Hnd) as (H1 & H2).
  destruct (NoDup_map_split _ _ _ _ Hbnd) as (H3 & H4).
  destruct Hbok as (_ & Hcn & _).
  exists ts1, T, ts2, bs1, B, bs2. repeat split; try assumption.
  - rewrite <- Hnum. apply (numbered_range _ _ _ Hcn HC).
  - rewrite <- Hnum. apply (numbered_range _ _ _ Hcn HC).
Qed.

(** ** Lookup misses in the navigator *)

Lemma findAdjacentChapter_unknown_testament d testament book chapter direction :
  Forall (fun t => testament_name t <> testament) d ->
  findAdjacentChapter d testament book chapter direction = Throw TypeError.
Proof.
  intros H. unfold findAdjacentChapter.
  rewrite findIndex_none.
  - rewrite at_index_neg by lia. reflexivity.
  - eapply Forall_impl; [exact H|]. intros t Ht. apply String.eqb_neq, Ht.
Qed.

Lemma findAdjacentChapter_unknown_book d ts1 T ts2 book chapter :
  d = ts1 ++ T :: ts2 ->
  Forall (fun t => testament_name t <> testament_name T) ts1 ->
  Forall (fun b => book_name b <> book) (testament_books T) ->
  findAdjacentChapter d (testament_name T) book chapter next = Throw TypeError.
Proof.
  intros Hd Hts1 Hb. unfold findAdjacentChapter.
  rewrite Hd at 1 2. rewrite findIndex_first, at_index_middle.
  - simpl. rewrite findIndex_none.
    + rewrite at_index_neg by lia. reflexivity.
    + eapply Forall_impl; [exact Hb|]. intros b Hb'. apply String.eqb_neq, Hb'.
  - eapply Forall_impl; [exact Hts1|]. intros t Ht. apply String.eqb_neq, Ht.
  - apply String.eqb_refl.
Qed.

(** C4: on a coordinate whose testament name does not occur in the corpus
    the navigator does not return [null]: reading [.books] of the
    testament that [findIndex] did not find throws a TypeError, for [next]
    and for [prev]; an unknown book name in a known testament throws for
    [next].  Shown on the example corpus of the specification. *)
Theorem findAdjacentChapter_lookup_miss_throws :
  findAdjacentChapter exampleCorpus "C" "Genesis" 1 next = Throw TypeError
  /\ findAdjacentChapter exampleCorpus "C" "Genesis" 1 prev = Throw TypeError
  /\ findAdjacentChapter exampleCorpus "A" "Exodus" 1 next = Throw TypeError.
Proof. repeat split; vm_compute; reflexivity. Qed.

(** C5: on a valid coordinate of a corpus that satisfies the data-model
    invariants the navigator returns what the specification prescribes:
    for [next] the following chapter of the book, else the first chapter
    of the following book of the testament, else chapter 1 of the first
    book of the following testament, else nothing; for [prev] the
    preceding chapter, else the last chapter of the preceding book, else
    the last chapter of the last book of the preceding testament, else
    nothing.  At the first chapter of the corpus [prev] returns nothing, at
    the last one [next] returns nothing, and the two examples of the
    specification evaluate as it says. *)
Theorem findAdjacentChapter_spec :
  (forall d testament book chapter direction,
      corpus_ok d -> valid_coordinate d testament book chapter ->
      findAdjacentChapter d testament book chapter direction
      = Return (spec_adjacentChapter d testament book chapter direction))
  /\ (forall d T B,
        corpus_ok d -> head d = Some T -> head (testament_books T) = Some B ->
        findAdjacentChapter d (testament_name T) (book_name B) 1 prev = Return None)
  /\ (forall d T B,
        corpus_ok d -> last d = Some T -> last (testament_books T) = Some B ->
        findAdjacentChapter d (testament_name T) (book_name B)
          (len (book_chapters B)) next = Return None)
  /\ findAdjacentChapter exampleCorpus "A" "Genesis" 2 next
     = Return (Some (mkCoordinate "B" "Exodus" 1))
  /\ findAdjacentChapter exampleCorpus "B" "Exodus" 1 prev
     = Return (Some (mkCoordinate "A" "Genesis" 2)).
Proof.
  split; [|split; [|split; [|split]]].
  - intros d testament book chapter direction Hok Hv.
    destruct (valid_position _ _ _ _ Hok Hv)
      as (ts1 & T & ts2 & bs1 & B & bs2 & Hd & <- & Hts1 & _ & Hb & <- & Hbs1 & _ & _).
    unfold spec_adjacentChapter.
    rewrite (split_testament d ts1 T ts2 Hd Hts1).
    rewrite (split_book T bs1 B bs2 Hb Hbs1).
    destruct direction.
    + rewrite (findAdjacentChapter_prev_at d ts1 T ts2 bs1 B bs2 Hd Hts1 Hb Hbs1).
      unfold spec_prev. destruct (1 <? chapter); [reflexivity|].
      destruct (last bs1); [reflexivity|].
      destruct (last ts1) as [pT|] eqn:HpT; [|reflexivity].
      destruct (last (testament_books pT)) eqn:Hlb; [reflexivity|].
      exfalso. apply last_None in Hlb.
      destruct Hok as (_ & _ & Hall). rewrite Forall_forall in Hall.
      assert (HpTok : testament_ok pT).
      { apply Hall. rewrite Hd. apply elem_of_app. left.
        apply last_Some in HpT as [l' ->]. apply elem_of_app. right. left. }
      destruct HpTok as (Hne & _). rewrite Hlb in Hne. unfold len in Hne. simpl in Hne. lia.
    + rewrite (findAdjacentChapter_next_at d ts1 T ts2 bs1 B bs2 Hd Hts1 Hb Hbs1).
      unfold spec_next. destruct (chapter <? len (book_chapters B)); [reflexivity|].
      destruct bs2; [|reflexivity].
      destruct ts2 as [|nT ts2']; [reflexivity|].
      destruct (testament_books nT) eqn:Hnb; [|reflexivity].
      exfalso. destruct Hok as (_ & _ & Hall). rewrite Forall_forall in Hall.
      assert (HnTok : testament_ok nT).
      { apply Hall. rewrite Hd. apply elem_of_app. right. right. left. }
      destruct HnTok as (Hne & _). rewrite Hnb in Hne. unfold len in Hne. simpl in Hne. lia.
  - intros d T B _ HT HB.
    destruct d as [|T' ts2]; [discriminate|]. injection HT as ->.
    destruct (testament_books T) as [|B' bs2] eqn:Hb; [discriminate|]. injection HB as ->.
    rewrite (findAdjacentChapter_prev_at (T :: ts2) [] T ts2 [] B bs2
               eq_refl (Forall_nil_2 _) Hb (Forall_nil_2 _)).
    reflexivity.
  - intros d T B (_ & Hnd & Hall) HT HB.
    apply last_Some in HT as [ts1 ->].
    assert (Hok : testament_ok T).
    { rewrite Forall_forall in Hall. apply Hall. apply elem_of_app. right. left. }
    destruct Hok as (_ & Hbnd & _).
    apply last_Some in HB as [bs1 HB]. rewrite HB in Hbnd.
    destruct (NoDup_map_split _ _ _ _ Hnd) as (H1 & _).
    destruct (NoDup_map_split _ _ _ _ Hbnd) as (H3 & _).
    rewrite (findAdjacentChapter_next_at (ts1 ++ [T]) ts1 T [] bs1 B []
               eq_refl H1 HB H3).
    rewrite Z.ltb_irrefl. reflexivity.
  - vm_compute. reflexivity.
  - vm_compute. reflexivity.
Qed.

Lemma findAdjacentChapter_spec_witness :
  findAdjacentChapter exampleCorpus "A" "Genesis" 1 next
  = Return (spec_adjacentChapter exampleCorpus "A" "Genesis" 1 next).
Proof.
  apply (proj1 findAdjacentChapter_spec exampleCorpus "A" "Genesis" 1 next).
  - apply (bool_decide_unpack _). vm_compute. exact I.
  - apply (bool_decide_unpack _). vm_compute. exact I.
Defined.

(** C6: on a valid coordinate [c] of a corpus that satisfies the
    data-model invariants, when [next] returns a coordinate, [prev] of that
    coordinate returns [c]. *)
Theorem next_prev_roundtrip d testament book chapter c' :
  corpus_ok d -> valid_coordinate d testament book chapter ->
  findAdjacentChapter d testament book chapter next = Return (Some c') ->
  findAdjacentChapter d (coord_testament c') (coord_book c') (coord_chapter c') prev
  = Return (Some (mkCoordinate testament book chapter)).
Proof.
  intros Hok Hv.
  destruct (valid_position _ _ _ _ Hok Hv)
    as (ts1 & T & ts2 & bs1 & B & bs2 & Hd & <- & Hts1 & Hts2 & Hb & <- & Hbs1 & Hbs2 & Hc).
  rewrite (findAdjacentChapter_next_at d ts1 T ts2 bs1 B bs2 Hd Hts1 Hb Hbs1).
  destruct (Z.ltb_spec chapter (len (book_chapters B))) as [Hlt|Hge].
  - (* the following chapter of the same book *)
    intros [= <-]. simpl.
    rewrite (findAdjacentChapter_prev_at d ts1 T ts2 bs1 B bs2 Hd Hts1 Hb Hbs1).
    destruct (Z.ltb_spec 1 (chapter + 1)); [|lia].
    do 3 f_equal. lia.
  - assert (chapter = len (book_chapters B)) as -> by lia.
    destruct bs2 as [|nB bs2'].
    + destruct ts2 as [|nT ts2']; [discriminate|].
      destruct (testament_books nT) as [|fB fbs] eqn:HnT; [discriminate|].
      (* the first book of the following testament *)
      intros [= <-]. simpl.
      assert (Hd' : d = (ts1 ++ [T]) ++ nT :: ts2')
        by (rewrite <- app_assoc; exact Hd).
      assert (Hts1' : Forall (fun t => testament_name t <> testament_name nT) (ts1 ++ [T])).
      { destruct Hok as (_ & Hnd & _). rewrite Hd' in Hnd.
        apply (NoDup_map_split _ _ _ _ Hnd). }
      rewrite (findAdjacentChapter_prev_at d (ts1 ++ [T]) nT ts2' [] fB fbs
                 Hd' Hts1' HnT (Forall_nil_2 _)).
      simpl. rewrite last_snoc, Hb, last_snoc. reflexivity.
    + (* the following book of the same testament *)
      intros [= <-]. simpl.
      assert (Hb' : testament_books T = (bs1 ++ [B]) ++ nB :: bs2')
        by (rewrite <- app_assoc; exact Hb).
      assert (Hbs1' : Forall (fun b => book_name b <> book_name nB) (bs1 ++ [B])).
      { destruct Hok as (_ & _ & Hall). rewrite Forall_forall in Hall.
        assert (HT : testament_ok T).
        { apply Hall. rewrite Hd. apply elem_of_app. right. left. }
        destruct HT as (_ & Hbnd & _). rewrite Hb' in Hbnd.
        apply (NoDup_map_split _ _ _ _ Hbnd). }
      rewrite (findAdjacentChapter_prev_at d ts1 T ts2 (bs1 ++ [B]) nB bs2'
                 Hd Hts1 Hb' Hbs1').
      simpl. rewrite last_snoc. reflexivity.
Qed.

Lemma next_prev_roundtrip_witness :
  findAdjacentChapter exampleCorpus "B" "Exodus" 1 prev
  = Return (Some (mkCoordinate "A" "Genesis" 2)).
Proof.
  apply (next_prev_roundtrip exampleCorpus "A" "Genesis" 2 (mkCoordinate "B" "Exodus" 1)).
  - apply (bool_decide_unpack _). vm_compute. exact I.
  - apply (bool_decide_unpack _). vm_compute. exact I.
  - vm_compute. reflexivity.
Defined.

(** Where names do not identify, a coordinate resolves to the first
    bearer of the name and the round trip is lost: the invariant on names
    is needed. *)
Remark roundtrip_needs_identifying_names :
  ~ corpus_ok twoBooksOneName
  /\ findAdjacentChapter twoBooksOneName "A" "Y" 1 next
     = Return (Some (mkCoordinate "A" "X" 1))
  /\ findAdjacentChapter twoBooksOneName "A" "X" 1 prev = Return None.
Proof.
  split; [apply (bool_decide_unpack _); vm_compute; exact I|].
  split; vm_compute; reflexivity.
Qed.

Lemma exampleCorpus_ok : corpus_ok exampleCorpus.
Proof. apply (bool_decide_unpack _). vm_compute. exact I. Qed.

(** ** Opening tabs *)

Lemma len_eqb_0 {A} (l : list A) : (len l =? 0) = false <-> l <> [].
Proof.
  destruct l; unfold len; simpl.
  - split; [discriminate | congruence].
  - split; [discriminate | reflexivity].
Qed.

(** C1 as stated fails: after a verse tab is opened in the sample session
    there is a tab other than the new, active one whose collapsed flag is
    not set. *)
Lemma handleVerseSelection_keeps_others_expanded :
  lookupVerses exampleCorpus "B" "Exodus" 1 <> []
  /\ exists tab,
       tab ∈ tabs (handleVerseSelection exampleCorpus sampleSession 1700000000000
                     "B" "Exodus" 1 js_undefined sampleSession)
       /\ tab_id tab <>
            activeTabId (handleVerseSelection exampleCorpus sampleSession 1700000000000
                           "B" "Exodus" 1 js_undefined sampleSession)
       /\ tab_isCollapsed tab = false.
Proof.
  split; [vm_compute; discriminate|].
  exists navigationTab. split; [|split].
  - vm_compute. left.
  - vm_compute. discriminate.
  - reflexivity.
Qed.

(** C1, amended: for every session and every coordinate that resolves to a
    non-empty verse list, [handleVerseSelection] builds a new verse tab,
    clears the collapsed flag of every tab already open and changes
    nothing else in them, appends the new tab after them and makes it the
    active one. *)
Theorem handleVerseSelection_opens_tab d s now testament book chapter highlightedVerse :
  lookupVerses d testament book chapter <> [] ->
  let verseTab :=
    mkTab ("verse-" +:+ testament +:+ "-" +:+ book +:+ "-"
             +:+ pretty chapter +:+ "-" +:+ pretty now)
          verse
          (book +:+ " " +:+ pretty chapter)
          (ContentVerse testament book chapter (lookupVerses d testament book chapter)
             highlightedVerse
             (if truthy highlightedVerse then Some (searchQuery s) else None))
          None false in
  let s' := handleVerseSelection d s now testament book chapter highlightedVerse s in
  tabs s' = map (with_isCollapsed false) (tabs s) ++ [verseTab]
  /\ activeTabId s' = tab_id verseTab
  /\ Forall (fun tab => tab_isCollapsed tab = false) (tabs s').
Proof.
  intros Hv. apply len_eqb_0 in Hv. simpl.
  unfold handleVerseSelection. rewrite Hv. simpl.
  split; [reflexivity|]. split; [reflexivity|].
  apply Forall_app. split.
  - apply Forall_forall. intros tab Htab.
    apply list_elem_of_In, in_map_iff in Htab as (t0 & <- & _). reflexivity.
  - repeat constructor.
Qed.

Lemma handleVerseSelection_opens_tab_witness :
  tabs (handleVerseSelection exampleCorpus sampleSession 7 "B" "Exodus" 1 js_undefined
          sampleSession)
  = map (with_isCollapsed false) (tabs sampleSession)
    ++ [mkTab "verse-B-Exodus-1-7" verse "Exodus 1"
          (ContentVerse "B" "Exodus" 1 [mkVerse 1 "x1"] js_undefined None) None false].
Proof.
  apply (handleVerseSelection_opens_tab exampleCorpus sampleSession 7 "B" "Exodus" 1
           js_undefined).
  vm_compute. discriminate.
Defined.

(** C10: for every session and every non-empty query, [handleSearch]
    leaves the tabs already open as they are, appends one search-results
    tab after them and makes it the active one; of the rest of the session
    only the stored query changes. *)
Theorem handleSearch_appends_tab d searchBible s now query :
  query <> "" ->
  let searchTab :=
    mkTab ("search-results-" +:+ pretty now)
          search_results
          ("نتائج: " +:+ query)
          (ContentSearch query (searchBible query d (searchMode s)))
          (Some (mkSearchOptions (searchMode s)))
          false in
  let s' := handleSearch d searchBible s now query s in
  tabs s' = tabs s ++ [searchTab]
  /\ activeTabId s' = tab_id searchTab
  /\ searchMode s' = searchMode s
  /\ scrollPositions s' = scrollPositions s
  /\ selectedTestament s' = selectedTestament s
  /\ selectedBook s' = selectedBook s
  /\ selectedChapter s' = selectedChapter s.
Proof.
  intros Hq. apply String.eqb_neq in Hq. simpl.
  unfold handleSearch. rewrite Hq. simpl. repeat split; reflexivity.
Qed.

Lemma handleSearch_appends_tab_witness :
  tabs searchSession
  = tabs sampleSession
    ++ [mkTab "search-results-5" search_results ("نتائج: " +:+ "x")
          (ContentSearch "x" []) (Some (mkSearchOptions partial)) false].
Proof.
  apply (handleSearch_appends_tab exampleCorpus noSearch sampleSession 5 "x").
  discriminate.
Defined.

(** ** Replaying a search from the history *)

(** The replay of a search record is [handleSearch] run by the current
    render, hence under the current mode, with the mode switch of the
    record queued next to it. *)
Lemma replay_of_search_record d searchBible s now historyEntry mode :
  entry_type historyEntry = search_results ->
  entry_searchOptions historyEntry = Some (mkSearchOptions mode) ->
  handleHistoryItemClick d searchBible s now historyEntry s
  = setSearchMode mode
      (handleSearch d searchBible s now (entry_searchQuery historyEntry) s).
Proof.
  intros Htype Hopts. unfold handleHistoryItemClick, handleSearch.
  rewrite Htype, Hopts. simpl.
  destruct (String.eqb (entry_searchQuery historyEntry) ""); reflexivity.
Qed.

(** C2: in the sample session, whose mode is [partial], replaying the
    record of a search for ["x"] made in exact mode opens a tab that was
    searched in partial mode and says so in its options, whatever the
    search engine; [handleSearch] under the recorded mode opens a tab
    searched in exact mode.  The two resulting sessions differ. *)
Theorem handleHistoryItemClick_searches_in_current_mode searchBible now :
  let replayed :=
    handleHistoryItemClick exampleCorpus searchBible sampleSession now
      exactSearchEntry sampleSession in
  let recorded := setSearchMode exact sampleSession in
  let expected := handleSearch exampleCorpus searchBible recorded now "x" recorded in
  searchMode sampleSession = partial
  /\ last (tabs replayed)
     = Some (mkTab ("search-results-" +:+ pretty now) search_results
               ("نتائج: " +:+ "x")
               (ContentSearch "x" (searchBible "x" exampleCorpus partial))
               (Some (mkSearchOptions partial)) false)
  /\ last (tabs expected)
     = Some (mkTab ("search-results-" +:+ pretty now) search_results
               ("نتائج: " +:+ "x")
               (ContentSearch "x" (searchBible "x" exampleCorpus exact))
               (Some (mkSearchOptions exact)) false)
  /\ searchMode replayed = exact
  /\ replayed <> expected.
Proof.
  simpl. split; [reflexivity|].
  assert (Hr : last (tabs (handleHistoryItemClick exampleCorpus searchBible sampleSession
                             now exactSearchEntry sampleSession))
               = Some (mkTab ("search-results-" +:+ pretty now) search_results
                         ("نتائج: " +:+ "x")
                         (ContentSearch "x" (searchBible "x" exampleCorpus partial))
                         (Some (mkSearchOptions partial)) false)) by reflexivity.
  assert (He : last (tabs (handleSearch exampleCorpus searchBible
                             (setSearchMode exact sampleSession) now "x"
                             (setSearchMode exact sampleSession)))
               = Some (mkTab ("search-results-" +:+ pretty now) search_results
                         ("نتائج: " +:+ "x")
                         (ContentSearch "x" (searchBible "x" exampleCorpus exact))
                         (Some (mkSearchOptions exact)) false)) by reflexivity.
  split; [exact Hr|]. split; [exact He|]. split; [reflexivity|].
  intros Heq. rewrite Heq, He in Hr. discriminate Hr.
Qed.

(** ** Navigating from the active tab *)

Lemma navigatedTabs_in_place active adjacentChapter verses prevTabs :
  Forall2 (in_place active) prevTabs (navigatedTabs active adjacentChapter verses prevTabs).
Proof.
  induction prevTabs as [|tab prevTabs IH]; simpl; constructor; [|exact IH].
  destruct (String.eqb_spec (tab_id tab) active) as [Heq|Hne].
  - repeat split; try reflexivity. intros Hne. contradiction.
  - repeat split; reflexivity.
Qed.

Lemma in_place_refl active : forall tab, in_place active tab tab.
Proof. intros tab. repeat split; reflexivity. Qed.

Lemma Forall2_in_place_refl active (l : list Tab) : Forall2 (in_place active) l l.
Proof. induction l; constructor; [apply in_place_refl | assumption]. Qed.

Lemma in_place_trans active t1 t2 t3 :
  in_place active t1 t2 -> in_place active t2 t3 -> in_place active t1 t3.
Proof.
  intros (Hid & Hty & Hco & Hop & Hsame) (Hid' & Hty' & Hco' & Hop' & Hsame').
  repeat split; try congruence.
  intros Hne. rewrite <- (Hsame Hne). apply Hsame'. rewrite Hid. exact Hne.
Qed.

Lemma Forall2_in_place_trans active (l1 l2 l3 : list Tab) :
  Forall2 (in_place active) l1 l2 -> Forall2 (in_place active) l2 l3 ->
  Forall2 (in_place active) l1 l3.
Proof.
  intros H12. revert l3. induction H12 as [|t1 t2 l1 l2 Ht _ IH]; intros l3 H23.
  - inversion H23. constructor.
  - inversion H23 as [|? t3 ? l3' Ht' Hl']; subst. constructor.
    + eapply in_place_trans; eassumption.
    + apply IH, Hl'.
Qed.

Lemma Forall2_in_place_ids active (l1 l2 : list Tab) :
  Forall2 (in_place active) l1 l2 -> map tab_id l2 = map tab_id l1.
Proof.
  induction 1 as [|t1 t2 l1 l2 Ht _ IH]; simpl; [reflexivity|].
  destruct Ht as (-> & _). rewrite IH. reflexivity.
Qed.

Lemma Forall2_in_place_types active (l1 l2 : list Tab) :
  Forall2 (in_place active) l1 l2 -> map tab_type l2 = map tab_type l1.
Proof.
  induction 1 as [|t1 t2 l1 l2 Ht _ IH]; simpl; [reflexivity|].
  destruct Ht as (_ & -> & _). rewrite IH. reflexivity.
Qed.

(** The three ways a navigation call ends. *)
Lemma handleChapterNavigation_cases d s testament book chapter direction :
  handleChapterNavigation d s testament book chapter direction s = Throw TypeError
  \/ handleChapterNavigation d s testament book chapter direction s = Return s
  \/ exists adjacentChapter,
       findAdjacentChapter d testament book chapter direction
       = Return (Some adjacentChapter)
       /\ lookupVerses d (coord_testament adjacentChapter) (coord_book adjacentChapter)
            (coord_chapter adjacentChapter) <> []
       /\ handleChapterNavigation d s testament book chapter direction s
          = Return
              (setSelectedChapter (Some (coord_chapter adjacentChapter))
                 (setSelectedBook (Some (coord_book adjacentChapter))
                    (setSelectedTestament (Some (coord_testament adjacentChapter))
                       (setTabs
                          (navigatedTabs (activeTabId s) adjacentChapter
                             (lookupVerses d (coord_testament adjacentChapter)
                                (coord_book adjacentChapter)
                                (coord_chapter adjacentChapter)))
                          s)))).
Proof.
  unfold handleChapterNavigation.
  destruct (findAdjacentChapter d testament book chapter direction)
    as [[adjacentChapter|]|[]] eqn:Hadj; simpl.
  - destruct (len (lookupVerses d (coord_testament adjacentChapter)
                     (coord_book adjacentChapter) (coord_chapter adjacentChapter)) =? 0)
      eqn:Hlen.
    + right. left. reflexivity.
    + right. right. exists adjacentChapter.
      split; [reflexivity|]. split; [apply len_eqb_0, Hlen | reflexivity].
  - right. left. reflexivity.
  - left. reflexivity.
Qed.

(** One navigation event: [activeTabId] stays and every tab is updated in
    place. *)
Lemma navigation_step d searchBible s testament book chapter direction :
  activeTabId (dispatch d searchBible s (ChapterNavigate testament book chapter direction))
  = activeTabId s
  /\ Forall2 (in_place (activeTabId s)) (tabs s)
       (tabs (dispatch d searchBible s (ChapterNavigate testament book chapter direction))).
Proof.
  simpl.
  destruct (handleChapterNavigation_cases d s testament book chapter direction)
    as [-> | [-> | (adj & _ & _ & ->)]]; simpl.
  - split; [reflexivity | apply Forall2_in_place_refl].
  - split; [reflexivity | apply Forall2_in_place_refl].
  - split; [reflexivity | apply navigatedTabs_in_place].
Qed.

(** C3 as stated fails: in the session whose active tab is the result tab
    of a search, a navigation call from Genesis 1 returns normally and the
    tab list is no longer what it was: the result tab now carries the
    title and the verses of Genesis 2. *)
Lemma handleChapterNavigation_rewrites_search_tab :
  activeTabType searchSession = Some search_results
  /\ exists s',
       handleChapterNavigation exampleCorpus searchSession "A" "Genesis" 1 next
         searchSession = Return s'
       /\ tabs s' <> tabs searchSession
       /\ last (tabs s')
          = Some (mkTab "search-results-5" search_results "Genesis 2"
                    (ContentVerse "A" "Genesis" 2 [mkVerse 1 "w1"] js_null None)
                    (Some (mkSearchOptions partial)) false).
Proof.
  split; [vm_compute; reflexivity|].
  eexists. split; [vm_compute; reflexivity|].
  split; [vm_compute; discriminate | vm_compute; reflexivity].
Qed.

(** After a navigation every tab that bears the active id carries the
    title and the payload of the adjacent chapter. *)
Lemma navigatedTabs_active active adjacentChapter verses prevTabs :
  Forall
    (fun tab =>
       tab_id tab = active ->
       tab_title tab
       = coord_book adjacentChapter +:+ " " +:+ pretty (coord_chapter adjacentChapter)
       /\ tab_content tab
          = ContentVerse (coord_testament adjacentChapter) (coord_book adjacentChapter)
              (coord_chapter adjacentChapter) verses js_null None)
    (navigatedTabs active adjacentChapter verses prevTabs).
Proof.
  induction prevTabs as [|tab prevTabs IH]; simpl; constructor; [|exact IH].
  destruct (String.eqb_spec (tab_id tab) active) as [Heq|Hne].
  - intros _. split; reflexivity.
  - intros Hid. contradiction.
Qed.

(** C3, amended: in every session whose active tab is not of kind verse, a
    navigation call leaves [activeTabId], the number and order of the
    tabs, and the id, kind, collapsed flag and search options of every tab
    as they were, and leaves every tab that does not bear the active id
    whole; the active tab is still not of kind verse afterwards.  Unless
    the navigator returns a coordinate that resolves to verses, the call
    changes nothing at all; when it does, the call replaces the title and
    the payload of every tab that bears the active id, whatever its kind,
    by the title and the verses of that chapter. *)
Theorem handleChapterNavigation_off_verse d s testament book chapter direction :
  (forall tab, tab ∈ tabs s -> tab_id tab = activeTabId s -> tab_type tab <> verse) ->
  let s' := settle s (handleChapterNavigation d s testament book chapter direction s) in
  activeTabId s' = activeTabId s
  /\ Forall2 (in_place (activeTabId s)) (tabs s) (tabs s')
  /\ (forall tab, tab ∈ tabs s' -> tab_id tab = activeTabId s' -> tab_type tab <> verse)
  /\ ((forall adjacentChapter,
         findAdjacentChapter d testament book chapter direction
         = Return (Some adjacentChapter) ->
         lookupVerses d (coord_testament adjacentChapter) (coord_book adjacentChapter)
           (coord_chapter adjacentChapter) = []) ->
      s' = s)
  /\ (forall adjacentChapter,
        findAdjacentChapter d testament book chapter direction
        = Return (Some adjacentChapter) ->
        lookupVerses d (coord_testament adjacentChapter) (coord_book adjacentChapter)
          (coord_chapter adjacentChapter) <> [] ->
        tabs s'
        = navigatedTabs (activeTabId s) adjacentChapter
            (lookupVerses d (coord_testament adjacentChapter)
               (coord_book adjacentChapter) (coord_chapter adjacentChapter))
            (tabs s)
        /\ Forall
             (fun tab =>
                tab_id tab = activeTabId s ->
                tab_title tab
                = coord_book adjacentChapter +:+ " "
                    +:+ pretty (coord_chapter adjacentChapter)
                /\ tab_content tab
                   = ContentVerse (coord_testament adjacentChapter)
                       (coord_book adjacentChapter) (coord_chapter adjacentChapter)
                       (lookupVerses d (coord_testament adjacentChapter)
                          (coord_book adjacentChapter) (coord_chapter adjacentChapter))
                       js_null None)
             (tabs s')).
Proof.
  intros Hkind. simpl.
  assert (Hreplace : forall adjacentChapter,
             findAdjacentChapter d testament book chapter direction
             = Return (Some adjacentChapter) ->
             lookupVerses d (coord_testament adjacentChapter)
               (coord_book adjacentChapter) (coord_chapter adjacentChapter) <> [] ->
             tabs (settle s (handleChapterNavigation d s testament book chapter
                               direction s))
             = navigatedTabs (activeTabId s) adjacentChapter
                 (lookupVerses d (coord_testament adjacentChapter)
                    (coord_book adjacentChapter) (coord_chapter adjacentChapter))
                 (tabs s)
             /\ Forall
                  (fun tab =>
                     tab_id tab = activeTabId s ->
                     tab_title tab
                     = coord_book adjacentChapter +:+ " "
                         +:+ pretty (coord_chapter adjacentChapter)
                     /\ tab_content tab
                        = ContentVerse (coord_testament adjacentChapter)
                            (coord_book adjacentChapter) (coord_chapter adjacentChapter)
                            (lookupVerses d (coord_testament adjacentChapter)
                               (coord_book adjacentChapter)
                               (coord_chapter adjacentChapter))
                            js_null None)
                  (tabs (settle s (handleChapterNavigation d s testament book chapter
                                     direction s)))).
  { intros adj Hadj Hne. apply len_eqb_0 in Hne.
    unfold handleChapterNavigation. rewrite Hadj. simpl. rewrite Hne. simpl.
    fold (navigatedTabs (activeTabId s) adj
            (lookupVerses d (coord_testament adj) (coord_book adj) (coord_chapter adj))
            (tabs s)).
    split; [reflexivity|]. apply navigatedTabs_active. }
  cut (activeTabId (settle s (handleChapterNavigation d s testament book chapter
                                direction s)) = activeTabId s
       /\ Forall2 (in_place (activeTabId s)) (tabs s)
            (tabs (settle s (handleChapterNavigation d s testament book chapter
                               direction s)))
       /\ (forall tab,
             tab ∈ tabs (settle s (handleChapterNavigation d s testament book chapter
                                     direction s)) ->
             tab_id tab
             = activeTabId (settle s (handleChapterNavigation d s testament book chapter
                                        direction s)) ->
             tab_type tab <> verse)
       /\ ((forall adjacentChapter,
              findAdjacentChapter d testament book chapter direction
              = Return (Some adjacentChapter) ->
              lookupVerses d (coord_testament adjacentChapter)
                (coord_book adjacentChapter) (coord_chapter adjacentChapter) = []) ->
           settle s (handleChapterNavigation d s testament book chapter direction s) = s)).
  { intros (H1 & H2 & H3 & H4). repeat split; try assumption; apply Hreplace; assumption. }
  clear Hreplace.
  assert (Hstay : forall l' : list Tab,
             Forall2 (in_place (activeTabId s)) (tabs s) l' ->
             forall tab, tab ∈ l' -> tab_id tab = activeTabId s -> tab_type tab <> verse).
  { intros l' HF tab Htab Hid.
    apply list_elem_of_lookup in Htab as [i Hi].
    destruct (Forall2_lookup_r _ _ _ _ _ HF Hi) as (old & Hold & Hrel).
    destruct Hrel as (Hid' & Hty & _). rewrite Hty.
    apply Hkind; [apply list_elem_of_lookup; eauto | congruence]. }
  destruct (handleChapterNavigation_cases d s testament book chapter direction)
    as [-> | [-> | (adj & Hadj & Hverses & ->)]]; simpl.
  - repeat split; auto using Forall2_in_place_refl.
  - repeat split; auto using Forall2_in_place_refl.
  - split; [reflexivity|]. split; [apply navigatedTabs_in_place|]. split.
    + apply Hstay, navigatedTabs_in_place.
    + intros Hnone. exfalso. apply Hverses, Hnone, Hadj.
Qed.

Lemma handleChapterNavigation_off_verse_witness :
  activeTabId
    (settle searchSession
       (handleChapterNavigation exampleCorpus searchSession "A" "Genesis" 1 next
          searchSession))
  = activeTabId searchSession
  /\ tabs
       (settle searchSession
          (handleChapterNavigation exampleCorpus searchSession "A" "Genesis" 1 next
             searchSession))
     = navigatedTabs (activeTabId searchSession) (mkCoordinate "A" "Genesis" 2)
         [mkVerse 1 "w1"] (tabs searchSession).
Proof.
  destruct (handleChapterNavigation_off_verse exampleCorpus searchSession
              "A" "Genesis" 1 next) as (Hactive & _ & _ & _ & Hreplace).
  - apply (Forall_forall
             (fun tab => tab_id tab = activeTabId searchSession -> tab_type tab <> verse)).
    apply (bool_decide_unpack _). vm_compute. exact I.
  - split; [exact Hactive|].
    apply (Hreplace (mkCoordinate "A" "Genesis" 2)).
    + vm_compute. reflexivity.
    + vm_compute. discriminate.
Defined.

(** C9: for every session and every sequence of navigation calls, the
    number of tabs, the id of every tab in order and [activeTabId] are
    after the sequence what they were before it; the calls update tabs in
    place: kind, collapsed flag and search options of every tab stay, and
    a tab that does not bear the active id stays whole. *)
Theorem navigation_keeps_tabs d searchBible s calls :
  let s' := run d searchBible s (navigationEvents calls) in
  length (tabs s') = length (tabs s)
  /\ map tab_id (tabs s') = map tab_id (tabs s)
  /\ activeTabId s' = activeTabId s
  /\ Forall2 (in_place (activeTabId s)) (tabs s) (tabs s').
Proof.
  simpl.
  assert (H : activeTabId (run d searchBible s (navigationEvents calls)) = activeTabId s
              /\ Forall2 (in_place (activeTabId s)) (tabs s)
                   (tabs (run d searchBible s (navigationEvents calls)))).
  { revert s. induction calls as [|[[[testament book] chapter] direction] calls IH];
      intros s.
    - split; [reflexivity | apply Forall2_in_place_refl].
    - unfold run. simpl. fold (run d searchBible).
      destruct (navigation_step d searchBible s testament book chapter direction)
        as (Hact & Hstep).
      change (settle s (handleChapterNavigation d s testament book chapter direction s))
        with (dispatch d searchBible s (ChapterNavigate testament book chapter direction)).
      destruct (IH (dispatch d searchBible s
                      (ChapterNavigate testament book chapter direction)))
        as (Hact' & Hrest).
      rewrite Hact in Hact', Hrest. split; [exact Hact'|].
      eapply Forall2_in_place_trans; eassumption. }
  destruct H as (Hact & HF).
  pose proof (Forall2_in_place_ids _ _ _ HF) as Hids.
  repeat split; try assumption.
  rewrite <- (length_map tab_id (tabs (run _ _ _ _))), Hids. apply length_map.
Qed.

(** ** Closing tabs *)

Lemma handleTabClose_keeps_permanent s tabId :
  isPermanent (List.find (fun t => String.eqb (tab_id t) tabId) (tabs s)) = true ->
  handleTabClose s tabId s = Return s.
Proof. intros H. unfold handleTabClose. rewrite H. reflexivity. Qed.

(** Closing a closable tab never throws; this is the session it leaves. *)
Lemma handleTabClose_closable s tabId :
  isPermanent (List.find (fun t => String.eqb (tab_id t) tabId) (tabs s)) = false ->
  handleTabClose s tabId s
  = Return
      (setScrollPositions (delete tabId (scrollPositions s))
         (setActiveTabId
            (if String.eqb (activeTabId s) tabId then
               match last (remainingTabs tabId (tabs s)) with
               | Some tab => tab_id tab
               | None => activeTabId s
               end
             else activeTabId s)
            (setTabs (remainingTabs tabId) s))).
Proof.
  intros H. unfold handleTabClose. rewrite H.
  fold (remainingTabs tabId (tabs s)).
  destruct (String.eqb (activeTabId s) tabId); [|reflexivity].
  rewrite at_index_last.
  destruct (remainingTabs tabId (tabs s)) as [|tab l] using rev_ind.
  - reflexivity.
  - rewrite last_snoc, len_app. pose proof (len_nonneg l).
    destruct (Z.ltb_spec 0 (len l + len [tab])); [reflexivity|].
    unfold len in *. simpl in *. lia.
Qed.

Lemma remainingTabs_ids tabId (l : list Tab) :
  Forall (fun tab => tab_id tab <> tabId) (remainingTabs tabId l).
Proof.
  apply Forall_forall. intros tab Htab.
  apply list_elem_of_In, filter_In in Htab as (_ & Hne).
  apply negb_true_iff, String.eqb_neq in Hne. exact Hne.
Qed.

Lemma remainingTabs_keeps tabId (l : list Tab) (tab : Tab) :
  tab ∈ l -> tab_id tab <> tabId -> tab ∈ remainingTabs tabId l.
Proof.
  intros Htab Hne. apply list_elem_of_In, filter_In. split.
  - apply list_elem_of_In, Htab.
  - apply negb_true_iff, String.eqb_neq, Hne.
Qed.

(** *** The shape of the tab list *)

Lemma grows_refl s s' :
  tabs s' = tabs s -> activeTabId s' = activeTabId s -> grows s s'.
Proof.
  intros Ht Ha. exists (tabs s), []. rewrite app_nil_r. auto.
Qed.

Lemma grows_permanent_first s s' :
  grows s s' -> permanent_first s -> permanent_first s'.
Proof.
  intros (kept & appended & Htabs & Hids & Htypes & _)
         (nav & search & rest & Hs & Hn1 & Hn2 & Hs1 & Hs2).
  rewrite Hs in Hids, Htypes.
  destruct kept as [|nav' [|search' rest']]; simpl in *; try discriminate.
  injection Hids as Hi1 Hi2 _. injection Htypes as Ht1 Ht2 _.
  exists nav', search', (rest' ++ appended). rewrite Htabs.
  repeat split; congruence.
Qed.

Lemma grows_active_shown s s' :
  grows s s' -> active_shown s -> active_shown s'.
Proof.
  intros (kept & appended & Htabs & Hids & _ & Hact). unfold active_shown.
  rewrite Htabs, map_app, elem_of_app, Hids.
  destruct Hact as [-> | Hin]; auto.
Qed.

Lemma handleSearch_grows d searchBible r now query p :
  grows p (handleSearch d searchBible r now query p).
Proof.
  unfold handleSearch. destruct (String.eqb query "").
  - apply grows_refl; reflexivity.
  - eexists (tabs p), [_]. simpl. repeat split. right. left.
Qed.

Lemma handleVerseSelection_grows d r now testament book chapter highlightedVerse p :
  grows p (handleVerseSelection d r now testament book chapter highlightedVerse p).
Proof.
  unfold handleVerseSelection.
  destruct (len (lookupVerses d testament book chapter) =? 0).
  - apply grows_refl; reflexivity.
  - eexists (map (with_isCollapsed false) (tabs p)), [_]. simpl.
    rewrite !map_map. simpl. repeat split. right. left.
Qed.

Lemma handleHistoryItemClick_grows d searchBible s now historyEntry :
  grows s (handleHistoryItemClick d searchBible s now historyEntry s).
Proof.
  unfold handleHistoryItemClick. destruct (entry_type historyEntry).
  - apply grows_refl; reflexivity.
  - apply grows_refl; reflexivity.
  - apply handleVerseSelection_grows.
  - destruct (handleSearch_grows d searchBible s now (entry_searchQuery historyEntry)
                (setSearchQuery (entry_searchQuery historyEntry)
                   match entry_searchOptions historyEntry with
                   | Some searchOptions =>
                       setSearchMode (options_searchMode searchOptions) s
                   | None => s
                   end))
      as (kept & appended & Htabs & Hids & Htypes & Hact).
    exists kept, appended.
    destruct (entry_searchOptions historyEntry); simpl in *; auto.
Qed.

Lemma navigation_grows d searchBible s testament book chapter direction :
  grows s (dispatch d searchBible s (ChapterNavigate testament book chapter direction)).
Proof.
  destruct (navigation_step d searchBible s testament book chapter direction)
    as (Hact & HF).
  eexists _, []. rewrite app_nil_r. split; [reflexivity|].
  split; [eapply Forall2_in_place_ids, HF|].
  split; [eapply Forall2_in_place_types, HF|]. left. exact Hact.
Qed.

Lemma mountEffect_shape d lastTab savedPositions s :
  mountEffect d lastTab (initialState savedPositions) = Return s ->
  permanent_first s /\ active_shown s.
Proof.
  unfold mountEffect.
  destruct (at_index d 0) as [firstTestament|]; [simpl|discriminate].
  destruct (at_index (testament_books firstTestament) 0) as [firstBook|];
    [simpl|discriminate].
  destruct (at_index (book_chapters firstBook) 0) as [firstChapter|]; simpl.
  - destruct lastTab as [tab|]; simpl; intros [= <-];
      (split;
       [ eexists _, _, _; simpl; repeat split
       | unfold active_shown; simpl; right; right; left ]).
  - destruct lastTab as [tab|]; simpl; discriminate.
Qed.

Lemma find_permanent_first s tabId :
  permanent_first s ->
  isPermanent (List.find (fun t => String.eqb (tab_id t) tabId) (tabs s)) = false ->
  tabId <> "navigation" /\ tabId <> "search".
Proof.
  intros (nav & search & rest & Hs & Hn1 & Hn2 & Hs1 & Hs2) Hperm.
  rewrite Hs in Hperm. simpl in Hperm. rewrite Hn1, Hs1 in Hperm.
  split; intros ->; simpl in Hperm.
  - rewrite Hn2 in Hperm. discriminate.
  - rewrite Hs2 in Hperm. discriminate.
Qed.

Lemma remainingTabs_permanent_first s tabId :
  permanent_first s ->
  isPermanent (List.find (fun t => String.eqb (tab_id t) tabId) (tabs s)) = false ->
  exists nav search rest,
    tabs s = nav :: search :: rest
    /\ remainingTabs tabId (tabs s) = nav :: search :: remainingTabs tabId rest
    /\ tab_id nav = "navigation" /\ tab_type nav = navigation
    /\ tab_id search = "search" /\ tab_type search = search_input.
Proof.
  intros Hpf Hperm.
  destruct (find_permanent_first s tabId Hpf Hperm) as (Hne1 & Hne2).
  destruct Hpf as (nav & search & rest & Hs & Hn1 & Hn2 & Hs1 & Hs2).
  exists nav, search, rest. repeat split; try assumption.
  rewrite Hs. unfold remainingTabs. simpl. rewrite Hn1, Hs1.
  assert (String.eqb "navigation" tabId = false) as -> by (apply String.eqb_neq; congruence).
  assert (String.eqb "search" tabId = false) as -> by (apply String.eqb_neq; congruence).
  reflexivity.
Qed.

Lemma dispatch_permanent_first d searchBible s e :
  permanent_first s -> permanent_first (dispatch d searchBible s e).
Proof.
  intros Hpf. destruct e; simpl.
  - eapply grows_permanent_first; [apply handleSearch_grows | exact Hpf].
  - eapply grows_permanent_first;
      [apply (navigation_grows d searchBible s testament book chapter direction) | exact Hpf].
  - eapply grows_permanent_first; [apply handleVerseSelection_grows | exact Hpf].
  - eapply grows_permanent_first; [apply handleHistoryItemClick_grows | exact Hpf].
  - destruct (isPermanent (List.find (fun t => String.eqb (tab_id t) tabId) (tabs s)))
      eqn:Hperm.
    + rewrite (handleTabClose_keeps_permanent s tabId Hperm). exact Hpf.
    + rewrite (handleTabClose_closable s tabId Hperm). simpl.
      destruct (remainingTabs_permanent_first s tabId Hpf Hperm)
        as (nav & search & rest & _ & Hrem & Hn1 & Hn2 & Hs1 & Hs2).
      exists nav, search, (remainingTabs tabId rest). simpl. auto.
  - unfold handleTabClick. destruct (String.eqb (activeTabId s) tabId); exact Hpf.
  - exact Hpf.
  - exact Hpf.
  - exact Hpf.
  - exact Hpf.
  - exact Hpf.
Qed.

Lemma reachable_via_permanent_first d searchBible permitted s :
  reachable_via d searchBible permitted s -> permanent_first s.
Proof.
  induction 1 as [lastTab savedPositions s Hmount | s e _ IH _].
  - apply (mountEffect_shape _ _ _ _ Hmount).
  - apply dispatch_permanent_first, IH.
Qed.

(** Closing the active tab when it is closable. *)
Lemma close_active d searchBible s :
  permanent_first s ->
  isPermanent (List.find (fun t => String.eqb (tab_id t) (activeTabId s)) (tabs s)) = false ->
  let s' := dispatch d searchBible s (TabClose (activeTabId s)) in
  tabs s' = remainingTabs (activeTabId s) (tabs s)
  /\ activeTabId s' <> activeTabId s
  /\ last (map tab_id (tabs s')) = Some (activeTabId s')
  /\ active_shown s'.
Proof.
  intros Hpf Hperm. simpl.
  rewrite (handleTabClose_closable s _ Hperm). simpl.
  rewrite String.eqb_refl.
  destruct (remainingTabs_permanent_first s _ Hpf Hperm)
    as (nav & search & rest & _ & Hrem & _).
  destruct (last (remainingTabs (activeTabId s) (tabs s))) as [tab|] eqn:Hlast.
  - split; [reflexivity|].
    pose proof (remainingTabs_ids (activeTabId s) (tabs s)) as Hids.
    apply last_Some in Hlast as [l' Hl'].
    rewrite Hl' in Hids |- *. apply Forall_app in Hids as (_ & Hids).
    apply (proj1 (Forall_singleton _ _)) in Hids.
    split; [exact Hids|]. unfold active_shown. simpl.
    rewrite ?Hl', map_app. simpl. split; [apply last_snoc|].
    apply elem_of_app. right. left.
  - apply last_None in Hlast. rewrite Hlast in Hrem. discriminate.
Qed.

Lemma dispatch_active_shown d searchBible s e :
  click_on_shown_tab s e -> permanent_first s -> active_shown s ->
  active_shown (dispatch d searchBible s e).
Proof.
  intros Hclick Hpf Hact. destruct e; simpl.
  - eapply grows_active_shown; [apply handleSearch_grows | exact Hact].
  - eapply grows_active_shown;
      [apply (navigation_grows d searchBible s testament book chapter direction) | exact Hact].
  - eapply grows_active_shown; [apply handleVerseSelection_grows | exact Hact].
  - eapply grows_active_shown; [apply handleHistoryItemClick_grows | exact Hact].
  - destruct (isPermanent (List.find (fun t => String.eqb (tab_id t) tabId) (tabs s)))
      eqn:Hperm.
    + rewrite (handleTabClose_keeps_permanent s tabId Hperm). exact Hact.
    + destruct (String.eqb_spec (activeTabId s) tabId) as [<- | Hne].
      * apply (close_active d searchBible s Hpf Hperm).
      * rewrite (handleTabClose_closable s tabId Hperm). unfold active_shown. simpl.
        apply String.eqb_neq in Hne as Hne'. rewrite Hne'.
        unfold active_shown in Hact.
        apply list_elem_of_In, in_map_iff in Hact as (tab & Hid & Htab).
        apply list_elem_of_In, in_map_iff. exists tab. split; [exact Hid|].
        apply list_elem_of_In, remainingTabs_keeps; [apply list_elem_of_In, Htab | congruence].
  - unfold handleTabClick. destruct (String.eqb (activeTabId s) tabId); [exact Hact|].
    exact Hclick.
  - exact Hact.
  - exact Hact.
  - exact Hact.
  - exact Hact.
  - exact Hact.
Qed.

Lemma reachable_active_shown d searchBible s :
  reachable_by_shown_tabs d searchBible s -> active_shown s.
Proof.
  induction 1 as [lastTab savedPositions s Hmount | s e Hs IH Hclick].
  - apply (mountEffect_shape _ _ _ _ Hmount).
  - apply dispatch_active_shown; [exact Hclick | | exact IH].
    eapply reachable_via_permanent_first, Hs.
Qed.

(** C8: closing a permanent tab changes nothing.  When the id passed to
    [handleTabClose] resolves to a tab of kind navigation or search-input,
    the session that results is the session as it was; in every session
    reachable from a start, by any events whatever, this is so for the ids
    ["navigation"] and ["search"] of the two permanent tabs. *)
Theorem handleTabClose_permanent :
  (forall s tab,
      List.find (fun t => String.eqb (tab_id t) (tab_id tab)) (tabs s) = Some tab ->
      tab_type tab = navigation \/ tab_type tab = search_input ->
      handleTabClose s (tab_id tab) s = Return s)
  /\ (forall d searchBible s,
        reachable d searchBible s ->
        handleTabClose s "navigation" s = Return s
        /\ handleTabClose s "search" s = Return s).
Proof.
  split.
  - intros s tab Hfind Htype. apply handleTabClose_keeps_permanent.
    rewrite Hfind. simpl. destruct Htype as [-> | ->]; reflexivity.
  - intros d searchBible s Hs.
    destruct (reachable_via_permanent_first _ _ _ _ Hs)
      as (nav & search & rest & Htabs & Hn1 & Hn2 & Hs1 & Hs2).
    split; apply handleTabClose_keeps_permanent; rewrite Htabs; simpl.
    + rewrite Hn1. simpl. rewrite Hn2. reflexivity.
    + rewrite Hn1, Hs1. simpl. rewrite Hs2. reflexivity.
Qed.

Lemma handleTabClose_permanent_witness :
  handleTabClose sampleSession "search" sampleSession = Return sampleSession.
Proof.
  apply (proj1 handleTabClose_permanent sampleSession searchTab).
  - vm_compute. reflexivity.
  - right. reflexivity.
Defined.

(** C7 as stated fails: a click handler that is handed an id no tab bears
    stores it, and the session that results, reachable from a start, has
    an [activeTabId] that names no tab. *)
Lemma handleTabClick_unknown_id :
  mountEffect exampleCorpus None (initialState ∅) = Return sampleSession
  /\ reachable exampleCorpus noSearch
       (dispatch exampleCorpus noSearch sampleSession (TabClick "ghost"))
  /\ ~ active_shown (dispatch exampleCorpus noSearch sampleSession (TabClick "ghost")).
Proof.
  split; [vm_compute; reflexivity|]. split.
  - apply reachable_step; [|exact I].
    apply (reachable_mount _ _ _ None ∅). vm_compute. reflexivity.
  - unfold active_shown. apply (bool_decide_unpack _). vm_compute. exact I.
Qed.

(** C7, amended: in every session reached from a start by the handlers,
    tab clicks being made on tabs of the session, [activeTabId] names a
    tab of the tab list.  In every session reached from a start, closing
    the active tab when it is closable removes the tabs that bear its id
    and nothing else, and [activeTabId] then differs from the closed id
    and is the id of the last tab of the list that remains. *)
Theorem activeTabId_names_tab d searchBible :
  (forall s, reachable_by_shown_tabs d searchBible s -> active_shown s)
  /\ (forall permitted s,
        reachable_via d searchBible permitted s ->
        isPermanent (List.find (fun t => String.eqb (tab_id t) (activeTabId s)) (tabs s))
        = false ->
        let s' := dispatch d searchBible s (TabClose (activeTabId s)) in
        tabs s' = remainingTabs (activeTabId s) (tabs s)
        /\ activeTabId s' <> activeTabId s
        /\ last (map tab_id (tabs s')) = Some (activeTabId s')
        /\ active_shown s').
Proof.
  split.
  - apply reachable_active_shown.
  - intros permitted s Hs Hperm. apply close_active; [|exact Hperm].
    eapply reachable_via_permanent_first, Hs.
Qed.

Lemma activeTabId_names_tab_witness : active_shown sampleSession.
Proof.
  apply (proj1 (activeTabId_names_tab exampleCorpus noSearch) sampleSession).
  apply (reachable_mount _ _ _ None ∅). vm_compute. reflexivity.
Defined.


(** * Further properties of the code *)

(** ** The navigator follows the reading order *)

Lemma app_split_at {A} (a b l1 l2 : list A) (c : A) :
  a ++ b = l1 ++ c :: l2 ->
  (exists p2, a = l1 ++ c :: p2 /\ l2 = p2 ++ b)
  \/ (exists q, l1 = a ++ q /\ b = q ++ c :: l2).
Proof.
  revert l1. induction a as [|x a IH]; intros l1 H; simpl in H.
  - right. exists l1. auto.
  - destruct l1 as [|y l1]; simpl in H; injection H as -> H.
    + left. exists a. subst. auto.
    + destruct (IH l1 H) as [(p2 & -> & ->) | (q & -> & ->)].
      * left. exists p2. auto.
      * right. exists q. auto.
Qed.

Lemma flat_map_split {A B} (f : A -> list B) (l : list A) (l1 : list B) (c : B)
    (l2 : list B) :
  flat_map f l = l1 ++ c :: l2 ->
  exists xs1 x xs2 p1 p2,
    l = xs1 ++ x :: xs2 /\ f x = p1 ++ c :: p2
    /\ l1 = flat_map f xs1 ++ p1 /\ l2 = p2 ++ flat_map f xs2.
Proof.
  revert l1. induction l as [|x l IH]; intros l1 H; simpl in H.
  - destruct l1; discriminate.
  - destruct (app_split_at _ _ _ _ _ H) as [(p2 & Hx & ->) | (q & -> & Hq)].
    + exists [], x, l, l1, p2. auto.
    + destruct (IH q Hq) as (xs1 & y & xs2 & p1 & p2 & -> & Hy & -> & ->).
      exists (x :: xs1), y, xs2, p1, p2. simpl. rewrite app_assoc. auto.
Qed.

Lemma map_seq_split {B} (f : nat -> B) (a n : nat) (p1 : list B) (c : B) (p2 : list B) :
  map f (seq a n) = p1 ++ c :: p2 ->
  c = f (a + length p1)%nat
  /\ (length p1 + 1 + length p2 = n)%nat
  /\ p1 = map f (seq a (length p1))
  /\ p2 = map f (seq (a + length p1 + 1) (length p2)).
Proof.
  intros H.
  assert (Hn : (n = length p1 + (1 + length p2))%nat).
  { apply (f_equal length) in H. rewrite length_map, length_seq, length_app in H.
    simpl in H. lia. }
  rewrite Hn, seq_app, map_app in H. simpl in H.
  apply app_inj_1 in H as (H1 & H2);
    [|rewrite length_map, length_seq; reflexivity].
  injection H2 as Hc H2.
  replace (S (a + length p1)) with (a + length p1 + 1)%nat in H2 by lia.
  repeat split; auto. lia.
Qed.

Lemma chaptersOf_split T B p1 c p2 :
  chaptersOf T B = p1 ++ c :: p2 ->
  c = mkCoordinate (testament_name T) (book_name B) (len p1 + 1)
  /\ len p1 + 1 + len p2 = len (book_chapters B)
  /\ last p1 = (if 1 <? len p1 + 1
                then Some (mkCoordinate (testament_name T) (book_name B) (len p1))
                else None)
  /\ head p2 = (if len p1 + 1 <? len (book_chapters B)
                then Some (mkCoordinate (testament_name T) (book_name B) (len p1 + 1 + 1))
                else None).
Proof.
  intros H. apply map_seq_split in H as (Hc & Hn & Hp1 & Hp2).
  split; [|split; [|split]].
  - rewrite Hc. f_equal. unfold len. lia.
  - unfold len. lia.
  - destruct p1 as [|x p1] using rev_ind.
    + reflexivity.
    + rewrite last_snoc, len_app.
      destruct (Z.ltb_spec 1 (len p1 + len [x] + 1));
        [|unfold len in *; simpl in *; lia].
      rewrite length_app, seq_app, map_app in Hp1. simpl in Hp1.
      apply app_inj_2 in Hp1 as (_ & [= ->]); [|reflexivity].
      do 2 f_equal. unfold len. simpl. lia.
  - destruct p2 as [|x p2].
    + destruct (Z.ltb_spec (len p1 + 1) (len (book_chapters B)));
        [unfold len in *; simpl in *; lia | reflexivity].
    + destruct (Z.ltb_spec (len p1 + 1) (len (book_chapters B)));
        [|unfold len in *; simpl in *; lia].
      simpl in Hp2. injection Hp2 as -> _. simpl.
      do 2 f_equal. unfold len. lia.
Qed.

Lemma head_chaptersOf T B :
  0 < len (book_chapters B) ->
  head (chaptersOf T B) = Some (mkCoordinate (testament_name T) (book_name B) 1).
Proof.
  unfold chaptersOf, len. destruct (book_chapters B); simpl; [lia | reflexivity].
Qed.

Lemma last_chaptersOf T B :
  0 < len (book_chapters B) ->
  last (chaptersOf T B)
  = Some (mkCoordinate (testament_name T) (book_name B) (len (book_chapters B))).
Proof.
  unfold chaptersOf, len. intros H.
  destruct (length (book_chapters B)) as [|n] eqn:Hn; [simpl in H; lia|].
  replace (S n) with (n + 1)%nat by lia.
  rewrite seq_app, map_app. simpl. rewrite last_snoc.
  do 2 f_equal. lia.
Qed.

Lemma head_app_cons {A} (l1 l2 : list A) :
  head (l1 ++ l2) = match head l1 with Some x => Some x | None => head l2 end.
Proof. destruct l1; reflexivity. Qed.

Lemma last_app_cases {A} (l1 l2 : list A) :
  last (l1 ++ l2) = match last l2 with Some x => Some x | None => last l1 end.
Proof.
  destruct l2 as [|x l2] using rev_ind.
  - rewrite app_nil_r. reflexivity.
  - rewrite app_assoc, !last_snoc. reflexivity.
Qed.

Lemma flat_map_snoc {A B} (f : A -> list B) (l : list A) (x : A) :
  flat_map f (l ++ [x]) = flat_map f l ++ f x.
Proof. rewrite flat_map_app. simpl. rewrite app_nil_r. reflexivity. Qed.

Lemma corpus_ok_testament d T : corpus_ok d -> T ∈ d -> testament_ok T.
Proof. intros (_ & _ & Hall) HT. rewrite Forall_forall in Hall. apply Hall, HT. Qed.

Lemma testament_ok_book T B : testament_ok T -> B ∈ testament_books T -> book_ok B.
Proof. intros (_ & _ & Hall) HB. rewrite Forall_forall in Hall. apply Hall, HB. Qed.

Lemma head_chaptersOfTestament T :
  testament_ok T ->
  head (chaptersOfTestament T)
  = match head (testament_books T) with
    | Some B => Some (mkCoordinate (testament_name T) (book_name B) 1)
    | None => None
    end.
Proof.
  intros HT. unfold chaptersOfTestament.
  destruct (testament_books T) as [|B bs] eqn:Hb; [reflexivity|]. simpl.
  rewrite head_app_cons, head_chaptersOf; [reflexivity|].
  apply (testament_ok_book T B HT). rewrite Hb. left.
Qed.

Lemma last_chaptersOfTestament T :
  testament_ok T ->
  last (chaptersOfTestament T)
  = match last (testament_books T) with
    | Some B =>
        Some (mkCoordinate (testament_name T) (book_name B) (len (book_chapters B)))
    | None => None
    end.
Proof.
  intros HT. unfold chaptersOfTestament.
  destruct (testament_books T) as [|B bs] eqn:Hb using rev_ind; [reflexivity|].
  rewrite flat_map_snoc, last_snoc, last_app_cases, last_chaptersOf; [reflexivity|].
  apply (testament_ok_book T B HT). rewrite Hb. apply elem_of_app. right. left.
Qed.

(** Wherever a coordinate stands in the reading order, [next] returns its
    successor there and [prev] its predecessor. *)
Lemma navigator_steps_in_order d l1 c l2 :
  corpus_ok d ->
  corpusOrder d = l1 ++ c :: l2 ->
  findAdjacentChapter d (coord_testament c) (coord_book c) (coord_chapter c) next
  = Return (head l2)
  /\ findAdjacentChapter d (coord_testament c) (coord_book c) (coord_chapter c) prev
     = Return (last l1).
Proof.
  intros Hok H.
  apply flat_map_split in H as (ts1 & T & ts2 & q1 & q2 & Hd & HT & -> & ->).
  unfold chaptersOfTestament in HT.
  apply flat_map_split in HT as (bs1 & B & bs2 & p1 & p2 & Hb & HB & -> & ->).
  apply chaptersOf_split in HB as (-> & Hn & Hlast & Hhead). simpl.
  assert (HTok : testament_ok T).
  { apply (corpus_ok_testament d T Hok). rewrite Hd. apply elem_of_app. right. left. }
  destruct Hok as (_ & Hnd & Hall).
  pose proof HTok as (_ & Hbnd & _).
  rewrite Hd in Hnd. rewrite Hb in Hbnd.
  destruct (NoDup_map_split _ _ _ _ Hnd) as (Hts1 & _).
  destruct (NoDup_map_split _ _ _ _ Hbnd) as (Hbs1 & _).
  assert (Htok : forall t, t ∈ d -> testament_ok t)
    by (intros t Ht; rewrite Forall_forall in Hall; apply Hall, Ht).
  assert (Hbok : forall b, b ∈ testament_books T -> book_ok b)
    by (intros b; apply testament_ok_book, HTok).
  split.
  - rewrite (findAdjacentChapter_next_at d ts1 T ts2 bs1 B bs2 Hd Hts1 Hb Hbs1).
    rewrite <- app_assoc, head_app_cons, Hhead.
    destruct (len p1 + 1 <? len (book_chapters B)); [reflexivity|].
    destruct bs2 as [|nB bs2']; simpl.
    + destruct ts2 as [|nT ts2']; [reflexivity|]. simpl.
      assert (HnT : testament_ok nT).
      { apply Htok. rewrite Hd. apply elem_of_app. right. right. left. }
      rewrite head_app_cons, (head_chaptersOfTestament nT HnT).
      destruct HnT as (Hne & _).
      destruct (testament_books nT); [unfold len in Hne; simpl in Hne; lia | reflexivity].
    + rewrite <- app_assoc, head_app_cons, head_chaptersOf; [reflexivity|].
      apply Hbok. rewrite Hb. apply elem_of_app. right. right. left.
  - rewrite (findAdjacentChapter_prev_at d ts1 T ts2 bs1 B bs2 Hd Hts1 Hb Hbs1).
    rewrite !last_app_cases, Hlast.
    destruct (1 <? len p1 + 1); [do 3 f_equal; lia|].
    destruct bs1 as [|pB bs1'] using rev_ind.
    + simpl. destruct ts1 as [|pT ts1'] using rev_ind; [reflexivity|].
      rewrite last_snoc. unfold corpusOrder. rewrite flat_map_snoc, last_app_cases.
      assert (HpT : testament_ok pT).
      { apply Htok. rewrite Hd. apply elem_of_app. left. apply elem_of_app. right. left. }
      rewrite (last_chaptersOfTestament pT HpT).
      destruct HpT as (Hne & _).
      destruct (last (testament_books pT)) eqn:Hl; [reflexivity|].
      apply last_None in Hl. rewrite Hl in Hne. unfold len in Hne. simpl in Hne. lia.
    + rewrite last_snoc, flat_map_snoc, last_app_cases, last_chaptersOf; [reflexivity|].
      apply Hbok. rewrite Hb. apply elem_of_app. left. apply elem_of_app. right. left.
Qed.

(** X1: in a corpus that satisfies the data-model invariants, the
    navigator steps through the reading order.  Wherever a coordinate
    stands in the list of all chapters, [next] returns the coordinate that
    follows it there and [prev] the one that precedes it, and [null] where
    there is none. *)
Theorem findAdjacentChapter_reading_order d l1 c l2 :
  corpus_ok d ->
  corpusOrder d = l1 ++ c :: l2 ->
  findAdjacentChapter d (coord_testament c) (coord_book c) (coord_chapter c) next
  = Return (head l2)
  /\ findAdjacentChapter d (coord_testament c) (coord_book c) (coord_chapter c) prev
     = Return (last l1).
Proof. apply navigator_steps_in_order. Qed.

Lemma exampleCorpus_order :
  corpusOrder exampleCorpus
  = [] ++ mkCoordinate "A" "Genesis" 1
       :: [mkCoordinate "A" "Genesis" 2; mkCoordinate "B" "Exodus" 1].
Proof. reflexivity. Qed.

Lemma findAdjacentChapter_reading_order_witness :
  findAdjacentChapter exampleCorpus "A" "Genesis" 1 next
  = Return (Some (mkCoordinate "A" "Genesis" 2))
  /\ findAdjacentChapter exampleCorpus "A" "Genesis" 1 prev = Return None.
Proof.
  apply (findAdjacentChapter_reading_order exampleCorpus []
           (mkCoordinate "A" "Genesis" 1)
           [mkCoordinate "A" "Genesis" 2; mkCoordinate "B" "Exodus" 1]).
  - apply (bool_decide_unpack _). vm_compute. exact I.
  - reflexivity.
Defined.

(** ** Valid coordinates and the reading order *)

Lemma valid_in_order d testament book chapter :
  corpus_ok d -> valid_coordinate d testament book chapter ->
  mkCoordinate testament book chapter ∈ corpusOrder d.
Proof.
  intros Hok Hv.
  destruct (valid_position _ _ _ _ Hok Hv)
    as (ts1 & T & ts2 & bs1 & B & bs2 & Hd & <- & _ & _ & Hb & <- & _ & _ & Hc).
  apply list_elem_of_In, in_flat_map. exists T. split.
  { rewrite Hd. apply in_or_app. right. left. reflexivity. }
  apply in_flat_map. exists B. split.
  { rewrite Hb. apply in_or_app. right. left. reflexivity. }
  apply in_map_iff. exists (Z.to_nat chapter). split.
  - f_equal. lia.
  - apply in_seq. unfold len in Hc. lia.
Qed.

Lemma in_order_valid d c :
  corpus_ok d -> c ∈ corpusOrder d ->
  valid_coordinate d (coord_testament c) (coord_book c) (coord_chapter c).
Proof.
  intros Hok Hc.
  apply list_elem_of_In, in_flat_map in Hc as (T & HT & Hc).
  apply in_flat_map in Hc as (B & HB & Hc).
  apply in_map_iff in Hc as (i & <- & Hi). apply in_seq in Hi. simpl.
  apply list_elem_of_In in HT, HB.
  pose proof (corpus_ok_testament d T Hok HT) as HTok.
  pose proof (testament_ok_book T B HTok HB) as (_ & Hnum & _).
  destruct (lookup_lt_is_Some_2 (book_chapters B) (i - 1)) as [C HC]; [lia|].
  apply Exists_exists. exists T. split; [exact HT|]. split; [reflexivity|].
  apply Exists_exists. exists B. split; [exact HB|]. split; [reflexivity|].
  apply Exists_exists. exists C. split; [apply list_elem_of_lookup; eauto|].
  rewrite (numbered_lookup _ _ _ _ Hnum HC). lia.
Qed.

Lemma navigator_result_in_order d testament book chapter direction c' :
  corpus_ok d -> valid_coordinate d testament book chapter ->
  findAdjacentChapter d testament book chapter direction = Return (Some c') ->
  exists l1 l2,
    match direction with
    | next => corpusOrder d = l1 ++ mkCoordinate testament book chapter :: c' :: l2
    | prev => corpusOrder d = l1 ++ c' :: mkCoordinate testament book chapter :: l2
    end.
Proof.
  intros Hok Hv Hadj.
  apply (valid_in_order d _ _ _ Hok), list_elem_of_split in Hv as (l1 & l2 & Hsplit).
  destruct (navigator_steps_in_order d l1 _ l2 Hok Hsplit) as (Hnext & Hprev).
  simpl in Hnext, Hprev. destruct direction.
  - rewrite Hprev in Hadj. injection Hadj as Hl.
    apply last_Some in Hl as [l1' ->]. exists l1', l2.
    rewrite Hsplit, <- app_assoc. reflexivity.
  - rewrite Hnext in Hadj. injection Hadj as Hl.
    destruct l2 as [|x l2']; [discriminate|]. injection Hl as ->.
    exists l1, l2'. exact Hsplit.
Qed.

(** The navigator never returns the coordinate it was given. *)
Lemma navigator_moves d testament book chapter direction c' :
  corpus_ok d -> valid_coordinate d testament book chapter ->
  findAdjacentChapter d testament book chapter direction = Return (Some c') ->
  c' <> mkCoordinate testament book chapter.
Proof.
  intros Hok Hv.
  destruct (valid_position _ _ _ _ Hok Hv)
    as (ts1 & T & ts2 & bs1 & B & bs2 & Hd & <- & Hts1 & Hts2 & Hb & <- & Hbs1 & Hbs2 & Hc).
  destruct direction.
  - rewrite (findAdjacentChapter_prev_at d ts1 T ts2 bs1 B bs2 Hd Hts1 Hb Hbs1).
    destruct (1 <? chapter).
    { intros [= <-] [= ?]. lia. }
    destruct (last bs1) as [pB|] eqn:HpB.
    { intros [= <-] [= Hname _]. apply last_Some in HpB as [l ->].
      apply Forall_app in Hbs1 as (_ & Hp).
      apply (proj1 (Forall_singleton _ _)) in Hp. contradiction. }
    destruct (last ts1) as [pT|] eqn:HpT; [|discriminate].
    destruct (last (testament_books pT)); [|discriminate].
    intros [= <-] [= Hname _ _]. apply last_Some in HpT as [l ->].
    apply Forall_app in Hts1 as (_ & Hp).
    apply (proj1 (Forall_singleton _ _)) in Hp. contradiction.
  - rewrite (findAdjacentChapter_next_at d ts1 T ts2 bs1 B bs2 Hd Hts1 Hb Hbs1).
    destruct (chapter <? len (book_chapters B)).
    { intros [= <-] [= ?]. lia. }
    destruct bs2 as [|nB bs2'].
    + destruct ts2 as [|nT ts2']; [discriminate|].
      destruct (testament_books nT); [discriminate|].
      intros [= <-] [= Hname _ _].
      apply Forall_cons in Hts2 as (Hp & _). contradiction.
    + intros [= <-] [= Hname _].
      apply Forall_cons in Hbs2 as (Hp & _). contradiction.
Qed.

(** X2: reading on.  In a corpus that satisfies the invariants, pressing
    [next] from the first chapter passes every chapter of the corpus once,
    in reading order, and then stops: further presses add nothing. *)
Theorem readOn_covers_corpus d c l steps :
  corpus_ok d ->
  corpusOrder d = c :: l ->
  (length l <= steps)%nat ->
  readOn d steps c = corpusOrder d.
Proof.
  intros Hok Hd Hsteps. rewrite Hd.
  change (corpusOrder d = [] ++ c :: l) in Hd.
  revert Hd Hsteps. generalize (@nil Coordinate) as l1. revert c steps.
  induction l as [|c' l IH]; intros c steps l1 Hd Hsteps.
  - destruct (navigator_steps_in_order d l1 c [] Hok Hd) as (Hnext & _).
    destruct steps; simpl; [reflexivity|]. rewrite Hnext. reflexivity.
  - destruct (navigator_steps_in_order d l1 c (c' :: l) Hok Hd) as (Hnext & _).
    destruct steps as [|steps]; simpl in Hsteps; [lia|].
    simpl. rewrite Hnext. simpl. f_equal.
    apply (IH c' steps (l1 ++ [c])); [|lia].
    rewrite <- app_assoc. exact Hd.
Qed.

Lemma readOn_covers_corpus_witness :
  readOn exampleCorpus 5 (mkCoordinate "A" "Genesis" 1) = corpusOrder exampleCorpus.
Proof.
  apply (readOn_covers_corpus exampleCorpus (mkCoordinate "A" "Genesis" 1)
           [mkCoordinate "A" "Genesis" 2; mkCoordinate "B" "Exodus" 1] 5).
  - apply (bool_decide_unpack _). vm_compute. exact I.
  - reflexivity.
  - simpl. lia.
Defined.

(** X3: the round trip the other way.  On a valid coordinate of a corpus
    that satisfies the invariants, when [prev] returns a coordinate,
    [next] of that coordinate returns the one started from. *)
Theorem prev_next_roundtrip d testament book chapter c' :
  corpus_ok d -> valid_coordinate d testament book chapter ->
  findAdjacentChapter d testament book chapter prev = Return (Some c') ->
  findAdjacentChapter d (coord_testament c') (coord_book c') (coord_chapter c') next
  = Return (Some (mkCoordinate testament book chapter)).
Proof.
  intros Hok Hv Hadj.
  destruct (navigator_result_in_order d _ _ _ prev c' Hok Hv Hadj) as (l1 & l2 & Hsplit).
  apply (navigator_steps_in_order d l1 c' _ Hok Hsplit).
Qed.

Lemma prev_next_roundtrip_witness :
  findAdjacentChapter exampleCorpus "A" "Genesis" 2 next
  = Return (Some (mkCoordinate "B" "Exodus" 1)).
Proof.
  apply (prev_next_roundtrip exampleCorpus "B" "Exodus" 1 (mkCoordinate "A" "Genesis" 2)).
  - apply (bool_decide_unpack _). vm_compute. exact I.
  - apply (bool_decide_unpack _). vm_compute. exact I.
  - vm_compute. reflexivity.
Defined.

(** X4: the navigator stays inside the corpus.  On a valid coordinate of a
    corpus that satisfies the invariants, in either direction, a
    coordinate it returns is valid again and differs from the one it was
    given. *)
Theorem findAdjacentChapter_valid d testament book chapter direction c' :
  corpus_ok d -> valid_coordinate d testament book chapter ->
  findAdjacentChapter d testament book chapter direction = Return (Some c') ->
  valid_coordinate d (coord_testament c') (coord_book c') (coord_chapter c')
  /\ c' <> mkCoordinate testament book chapter.
Proof.
  intros Hok Hv Hadj. split; [|eapply navigator_moves; eassumption].
  destruct (navigator_result_in_order d _ _ _ direction c' Hok Hv Hadj)
    as (l1 & l2 & Hsplit).
  apply (in_order_valid d c' Hok).
  destruct direction; rewrite Hsplit; apply elem_of_app; right.
  - left.
  - right. left.
Qed.

Lemma findAdjacentChapter_valid_witness :
  valid_coordinate exampleCorpus "B" "Exodus" 1.
Proof.
  apply (findAdjacentChapter_valid exampleCorpus "A" "Genesis" 2 next
           (mkCoordinate "B" "Exodus" 1)).
  - apply (bool_decide_unpack _). vm_compute. exact I.
  - apply (bool_decide_unpack _). vm_compute. exact I.
  - vm_compute. reflexivity.
Defined.

(** ** Looking verses up *)

Lemma find_first {A} (p : A -> bool) (l1 : list A) (x : A) (l2 : list A) :
  Forall (fun y => p y = false) l1 -> p x = true ->
  List.find p (l1 ++ x :: l2) = Some x.
Proof.
  intros Hl1 Hx. induction Hl1 as [|y l1 Hy _ IH]; simpl.
  - rewrite Hx. reflexivity.
  - rewrite Hy. exact IH.
Qed.

Lemma find_by_name_testament d ts1 T ts2 :
  d = ts1 ++ T :: ts2 ->
  Forall (fun t => testament_name t <> testament_name T) ts1 ->
  List.find (fun t => String.eqb (testament_name t) (testament_name T)) d = Some T.
Proof.
  intros -> H. apply find_first.
  - eapply Forall_impl; [exact H|]. intros t Ht. apply String.eqb_neq, Ht.
  - apply String.eqb_refl.
Qed.

Lemma find_by_name_book bs bs1 B bs2 :
  bs = bs1 ++ B :: bs2 ->
  Forall (fun b => book_name b <> book_name B) bs1 ->
  List.find (fun b => String.eqb (book_name b) (book_name B)) bs = Some B.
Proof.
  intros -> H. apply find_first.
  - eapply Forall_impl; [exact H|]. intros b Hb. apply String.eqb_neq, Hb.
  - apply String.eqb_refl.
Qed.

Lemma find_by_number (cs : list Chapter) (i : nat) (C : Chapter) :
  numbered chapter_number cs -> cs !! i = Some C ->
  List.find (fun c => chapter_number c =? Z.of_nat i + 1) cs = Some C.
Proof.
  intros Hnum HC.
  rewrite <- (take_drop_middle cs i C HC).
  apply find_first.
  - apply Forall_forall. intros y Hy.
    apply list_elem_of_lookup in Hy as [j Hj].
    pose proof (lookup_lt_Some _ _ _ Hj) as Hlt. rewrite length_take in Hlt.
    rewrite lookup_take_lt in Hj by lia.
    rewrite (numbered_lookup _ _ _ _ Hnum Hj). apply Z.eqb_neq. lia.
  - rewrite (numbered_lookup _ _ _ _ Hnum HC). apply Z.eqb_refl.
Qed.

(** On a valid coordinate the lookup finds the chapter that bears the
    number, and its verses are there. *)
Lemma lookupVerses_valid d testament book chapter :
  corpus_ok d -> valid_coordinate d testament book chapter ->
  exists T B C,
    T ∈ d /\ testament_name T = testament
    /\ B ∈ testament_books T /\ book_name B = book
    /\ book_chapters B !! Z.to_nat (chapter - 1) = Some C
    /\ chapter_number C = chapter
    /\ lookupVerses d testament book chapter = chapter_verses C
    /\ chapter_verses C <> [].
Proof.
  intros Hok Hv.
  destruct (valid_position _ _ _ _ Hok Hv)
    as (ts1 & T & ts2 & bs1 & B & bs2 & Hd & <- & Hts1 & _ & Hb & <- & Hbs1 & _ & Hc).
  assert (HT : T ∈ d) by (rewrite Hd; apply elem_of_app; right; left).
  assert (HB : B ∈ testament_books T) by (rewrite Hb; apply elem_of_app; right; left).
  pose proof (corpus_ok_testament d T Hok HT) as HTok.
  pose proof (testament_ok_book T B HTok HB) as (_ & Hnum & Hcok).
  destruct (lookup_lt_is_Some_2 (book_chapters B) (Z.to_nat (chapter - 1))) as [C HC];
    [unfold len in Hc; lia|].
  pose proof (find_by_number _ _ _ Hnum HC) as Hfind.
  replace (Z.of_nat (Z.to_nat (chapter - 1)) + 1) with chapter in Hfind by lia.
  exists T, B, C. repeat split; try assumption.
  - rewrite (numbered_lookup _ _ _ _ Hnum HC). lia.
  - unfold lookupVerses.
    rewrite (find_by_name_testament d ts1 T ts2 Hd Hts1). simpl.
    rewrite (find_by_name_book _ bs1 B bs2 Hb Hbs1). simpl.
    rewrite Hfind. reflexivity.
  - rewrite Forall_forall in Hcok.
    destruct (Hcok C) as (Hne & _); [apply list_elem_of_lookup; eauto|].
    intros Hnil. rewrite Hnil in Hne. unfold len in Hne. simpl in Hne. lia.
Qed.

(** Whatever the corpus, the lookup yields verses only for a coordinate
    that resolves. *)
Lemma lookupVerses_found d testament book chapter :
  lookupVerses d testament book chapter <> [] ->
  valid_coordinate d testament book chapter.
Proof.
  unfold lookupVerses. intros H.
  destruct (List.find (fun t => String.eqb (testament_name t) testament) d)
    as [T|] eqn:HT; simpl in H; [|congruence].
  destruct (List.find (fun b => String.eqb (book_name b) book) (testament_books T))
    as [B|] eqn:HB; simpl in H; [|congruence].
  destruct (List.find (fun c => chapter_number c =? chapter) (book_chapters B))
    as [C|] eqn:HC; simpl in H; [|congruence].
  apply find_some in HT as (HT & HTn), HB as (HB & HBn), HC as (HC & HCn).
  apply String.eqb_eq in HTn, HBn. apply Z.eqb_eq in HCn.
  apply Exists_exists. exists T. split; [apply list_elem_of_In, HT|]. split; [exact HTn|].
  apply Exists_exists. exists B. split; [apply list_elem_of_In, HB|]. split; [exact HBn|].
  apply Exists_exists. exists C. split; [apply list_elem_of_In, HC | exact HCn].
Qed.

(** X5: in a corpus that satisfies the invariants, the verse lookup of
    the handlers returns the verses of the chapter that bears the number,
    a non-empty list, exactly when the coordinate is valid, and the empty
    list when it is not. *)
Theorem lookupVerses_resolves d testament book chapter :
  corpus_ok d ->
  (valid_coordinate d testament book chapter ->
   exists T B C,
     T ∈ d /\ testament_name T = testament
     /\ B ∈ testament_books T /\ book_name B = book
     /\ C ∈ book_chapters B /\ chapter_number C = chapter
     /\ lookupVerses d testament book chapter = chapter_verses C
     /\ chapter_verses C <> [])
  /\ (~ valid_coordinate d testament book chapter ->
      lookupVerses d testament book chapter = []).
Proof.
  intros Hok. split.
  - intros Hv.
    destruct (lookupVerses_valid d _ _ _ Hok Hv)
      as (T & B & C & HT & HTn & HB & HBn & HC & HCn & Hl & Hne).
    exists T, B, C. repeat split; try assumption.
    apply list_elem_of_lookup. eauto.
  - intros Hnv. destruct (lookupVerses d testament book chapter) eqn:Hl; [reflexivity|].
    exfalso. apply Hnv, lookupVerses_found. rewrite Hl. discriminate.
Qed.

Lemma lookupVerses_resolves_witness :
  lookupVerses exampleCorpus "A" "Leviticus" 1 = [].
Proof.
  apply (lookupVerses_resolves exampleCorpus "A" "Leviticus" 1).
  - apply (bool_decide_unpack _). vm_compute. exact I.
  - apply (bool_decide_unpack _). vm_compute. exact I.
Defined.

(** X6: [handleVerseSelection] opens a tab exactly for valid coordinates.
    In a corpus that satisfies the invariants, a valid coordinate makes
    the tab list one longer; on a coordinate that is not valid the session
    stays as it was. *)
Theorem handleVerseSelection_iff_valid d s now testament book chapter highlightedVerse :
  corpus_ok d ->
  (valid_coordinate d testament book chapter ->
   length (tabs (handleVerseSelection d s now testament book chapter highlightedVerse s))
   = S (length (tabs s)))
  /\ (~ valid_coordinate d testament book chapter ->
      handleVerseSelection d s now testament book chapter highlightedVerse s = s).
Proof.
  intros Hok. unfold handleVerseSelection. split.
  - intros Hv.
    destruct (lookupVerses_valid d _ _ _ Hok Hv) as (T & B & C & _ & _ & _ & _ & _ & _ & Hl & Hne).
    rewrite <- Hl in Hne. apply len_eqb_0 in Hne. rewrite Hne. simpl.
    rewrite length_app, length_map. simpl. lia.
  - intros Hnv.
    destruct (len (lookupVerses d testament book chapter) =? 0) eqn:Hlen; [reflexivity|].
    exfalso. apply Hnv, lookupVerses_found, len_eqb_0, Hlen.
Qed.

Lemma handleVerseSelection_iff_valid_witness :
  handleVerseSelection exampleCorpus sampleSession 7 "B" "Exodus" 9 js_undefined sampleSession
  = sampleSession.
Proof.
  apply (handleVerseSelection_iff_valid exampleCorpus sampleSession 7 "B" "Exodus" 9
           js_undefined).
  - apply (bool_decide_unpack _). vm_compute. exact I.
  - apply (bool_decide_unpack _). vm_compute. exact I.
Defined.

(** X7: navigation from a valid coordinate.  In a corpus that satisfies
    the invariants [handleChapterNavigation] does not throw on a valid
    coordinate; where the navigator returns a coordinate, the verses of
    that chapter are found and the tabs that bear the active id are given
    its title and verses, the sidebar selection following; where it
    returns [null], at either end of the corpus, the session stays as it
    was. *)
Theorem handleChapterNavigation_valid d s testament book chapter direction :
  corpus_ok d -> valid_coordinate d testament book chapter ->
  match findAdjacentChapter d testament book chapter direction with
  | Return (Some adjacentChapter) =>
      lookupVerses d (coord_testament adjacentChapter) (coord_book adjacentChapter)
        (coord_chapter adjacentChapter) <> []
      /\ handleChapterNavigation d s testament book chapter direction s
         = Return
             (setSelectedChapter (Some (coord_chapter adjacentChapter))
                (setSelectedBook (Some (coord_book adjacentChapter))
                   (setSelectedTestament (Some (coord_testament adjacentChapter))
                      (setTabs
                         (navigatedTabs (activeTabId s) adjacentChapter
                            (lookupVerses d (coord_testament adjacentChapter)
                               (coord_book adjacentChapter)
                               (coord_chapter adjacentChapter)))
                         s))))
  | Return None =>
      handleChapterNavigation d s testament book chapter direction s = Return s
  | Throw _ => False
  end.
Proof.
  intros Hok Hv.
  destruct (findAdjacentChapter d testament book chapter direction)
    as [[adjacentChapter|]|e] eqn:Hadj.
  - destruct (navigator_result_in_order d _ _ _ direction adjacentChapter Hok Hv Hadj)
      as (l1 & l2 & Hsplit).
    assert (Hadjv : valid_coordinate d (coord_testament adjacentChapter)
                      (coord_book adjacentChapter) (coord_chapter adjacentChapter)).
    { apply (in_order_valid d adjacentChapter Hok).
      destruct direction; rewrite Hsplit; apply elem_of_app; right;
        [left | right; left]. }
    destruct (lookupVerses_valid d _ _ _ Hok Hadjv)
      as (T & B & C & _ & _ & _ & _ & _ & _ & Hl & Hne).
    rewrite <- Hl in Hne. split; [exact Hne|].
    unfold handleChapterNavigation. rewrite Hadj. simpl.
    apply len_eqb_0 in Hne. rewrite Hne. reflexivity.
  - unfold handleChapterNavigation. rewrite Hadj. reflexivity.
  - apply (valid_in_order d _ _ _ Hok), list_elem_of_split in Hv as (l1 & l2 & Hsplit).
    destruct (navigator_steps_in_order d l1 _ l2 Hok Hsplit) as (Hnext & Hprev).
    simpl in Hnext, Hprev. destruct direction; congruence.
Qed.

Lemma handleChapterNavigation_valid_witness :
  handleChapterNavigation exampleCorpus sampleSession "B" "Exodus" 1 next sampleSession
  = Return sampleSession.
Proof.
  apply (handleChapterNavigation_valid exampleCorpus sampleSession "B" "Exodus" 1 next).
  - apply (bool_decide_unpack _). vm_compute. exact I.
  - apply (bool_decide_unpack _). vm_compute. exact I.
Defined.

(** ** When the navigator throws *)

Lemma find_Some_split {A} (p : A -> bool) (l : list A) (x : A) :
  List.find p l = Some x ->
  exists l1 l2, l = l1 ++ x :: l2 /\ Forall (fun y => p y = false) l1 /\ p x = true.
Proof.
  induction l as [|y l IH]; simpl; [discriminate|].
  destruct (p y) eqn:Hy.
  - intros [= ->]. exists [], l. auto.
  - intros H. destruct (IH H) as (l1 & l2 & -> & Hl1 & Hx).
    exists (y :: l1), l2. auto.
Qed.

Lemma find_None_all {A} (p : A -> bool) (l : list A) :
  List.find p l = None -> Forall (fun y => p y = false) l.
Proof.
  intros H. apply Forall_forall. intros y Hy.
  apply (find_none p l H), list_elem_of_In, Hy.
Qed.

Lemma named_position d testament T :
  List.find (byTestament testament) d = Some T ->
  testament_name T = testament
  /\ exists ts1 ts2,
       d = ts1 ++ T :: ts2
       /\ Forall (fun t => testament_name t <> testament_name T) ts1.
Proof.
  intros H. apply find_Some_split in H as (ts1 & ts2 & Hd & Hts1 & HT).
  apply String.eqb_eq in HT. split; [exact HT|].
  exists ts1, ts2. split; [exact Hd|].
  eapply Forall_impl; [exact Hts1|]. intros t Ht. rewrite HT. apply String.eqb_neq, Ht.
Qed.

Lemma named_book_position T book B :
  List.find (byBook book) (testament_books T) = Some B ->
  book_name B = book
  /\ exists bs1 bs2,
       testament_books T = bs1 ++ B :: bs2
       /\ Forall (fun b => book_name b <> book_name B) bs1.
Proof.
  intros H. apply find_Some_split in H as (bs1 & bs2 & Hb & Hbs1 & HB).
  apply String.eqb_eq in HB. split; [exact HB|].
  exists bs1, bs2. split; [exact Hb|].
  eapply Forall_impl; [exact Hbs1|]. intros b Hb'. rewrite HB. apply String.eqb_neq, Hb'.
Qed.

(** [prev] for a book name the testament does not know: the book is never
    read. *)
Lemma findAdjacentChapter_prev_unknown_book d ts1 T ts2 book chapter :
  d = ts1 ++ T :: ts2 ->
  Forall (fun t => testament_name t <> testament_name T) ts1 ->
  Forall (fun b => book_name b <> book) (testament_books T) ->
  findAdjacentChapter d (testament_name T) book chapter prev =
    if 1 <? chapter then
      Return (Some (mkCoordinate (testament_name T) book (chapter - 1)))
    else
      match last ts1 with
      | Some prevTestament =>
          match last (testament_books prevTestament) with
          | Some lastBook =>
              Return (Some (mkCoordinate (testament_name prevTestament)
                              (book_name lastBook) (len (book_chapters lastBook))))
          | None => Throw TypeError
          end
      | None => Return None
      end.
Proof.
  intros Hd Hts1 Hb. unfold findAdjacentChapter.
  fold (byTestament (testament_name T)).
  assert (Hi : findIndex (byTestament (testament_name T)) d = len ts1).
  { rewrite Hd. apply findIndex_first.
    - eapply Forall_impl; [exact Hts1|]. intros t Ht. apply String.eqb_neq, Ht.
    - apply String.eqb_refl. }
  rewrite Hi. rewrite Hd at 1. rewrite at_index_middle. simpl.
  rewrite findIndex_none
    by (eapply Forall_impl; [exact Hb|]; intros b Hb'; apply String.eqb_neq, Hb').
  destruct (1 <? chapter); [reflexivity|]. simpl.
  rewrite Hd.
  destruct ts1 as [|pT ts1'] using rev_ind; [reflexivity|].
  pose proof (len_nonneg ts1').
  rewrite last_snoc.
  destruct (Z.ltb_spec 0 (len (ts1' ++ [pT])));
    [|rewrite len_app in *; unfold len in *; simpl in *; lia].
  rewrite at_index_before, last_snoc. simpl. rewrite at_index_last.
  destruct (last (testament_books pT)); reflexivity.
Qed.

Lemma nonempty_last {A} (l : list A) : 0 < len l -> exists x, last l = Some x.
Proof.
  destruct l as [|x l] using rev_ind.
  - unfold len. simpl. lia.
  - intros _. exists x. apply last_snoc.
Qed.

(** X8: when the navigator throws.  In a corpus every testament of which
    has a book, [findAdjacentChapter] throws exactly when no testament
    bears the testament name, or when it is asked for [next] and the
    testament that bears the name has no book of the book name.  For
    [prev] an unknown book name does not make it throw. *)
Theorem findAdjacentChapter_throws_iff d testament book chapter direction :
  Forall (fun t => 0 < len (testament_books t)) d ->
  findAdjacentChapter d testament book chapter direction = Throw TypeError
  <-> (List.find (byTestament testament) d = None
       \/ (direction = next
           /\ exists T, List.find (byTestament testament) d = Some T
                        /\ List.find (byBook book) (testament_books T) = None)).
Proof.
  intros Hne. rewrite Forall_forall in Hne.
  destruct (List.find (byTestament testament) d) as [T|] eqn:HT.
  - destruct (named_position d testament T HT) as (<- & ts1 & ts2 & Hd & Hts1).
    assert (Hlast : forall pT, last ts1 = Some pT ->
                               exists lB, last (testament_books pT) = Some lB).
    { intros pT HpT. apply nonempty_last, Hne. rewrite Hd.
      apply last_Some in HpT as [l ->].
      apply elem_of_app. left. apply elem_of_app. right. left. }
    assert (Hhead : forall nT l, ts2 = nT :: l -> testament_books nT <> []).
    { intros nT l -> Hnil.
      assert (H : 0 < len (testament_books nT))
        by (apply Hne; rewrite Hd; apply elem_of_app; right; right; left).
      rewrite Hnil in H. unfold len in H. simpl in H. lia. }
    destruct (List.find (byBook book) (testament_books T)) as [B|] eqn:HB.
    + destruct (named_book_position T book B HB) as (<- & bs1 & bs2 & Hb & Hbs1).
      split.
      * intros Hthrow. exfalso. destruct direction.
        -- rewrite (findAdjacentChapter_prev_at d ts1 T ts2 bs1 B bs2 Hd Hts1 Hb Hbs1)
             in Hthrow.
           destruct (1 <? chapter); [discriminate|].
           destruct (last bs1); [discriminate|].
           destruct (last ts1) as [pT|] eqn:HpT; [|discriminate].
           destruct (Hlast pT eq_refl) as [lB HlB]. rewrite HlB in Hthrow. discriminate.
        -- rewrite (findAdjacentChapter_next_at d ts1 T ts2 bs1 B bs2 Hd Hts1 Hb Hbs1)
             in Hthrow.
           destruct (chapter <? len (book_chapters B)); [discriminate|].
           destruct bs2; [|discriminate].
           destruct ts2 as [|nT ts2']; [discriminate|].
           pose proof (Hhead nT ts2' eq_refl).
           destruct (testament_books nT); [congruence | discriminate].
      * intros [Hnone | (_ & T' & [= <-] & Hnone)]; [discriminate|].
        rewrite HB in Hnone. discriminate.
    + assert (Hb : Forall (fun b => book_name b <> book) (testament_books T)).
      { eapply Forall_impl; [apply (find_None_all _ _ HB)|].
        intros b Hb. apply String.eqb_neq, Hb. }
      split.
      * intros Hthrow. right. destruct direction.
        -- exfalso.
           rewrite (findAdjacentChapter_prev_unknown_book d ts1 T ts2 book chapter
                      Hd Hts1 Hb) in Hthrow.
           destruct (1 <? chapter); [discriminate|].
           destruct (last ts1) as [pT|] eqn:HpT; [|discriminate].
           destruct (Hlast pT eq_refl) as [lB HlB]. rewrite HlB in Hthrow. discriminate.
        -- split; [reflexivity|]. exists T. auto.
      * intros [Hnone | (-> & _)]; [discriminate|].
        apply (findAdjacentChapter_unknown_book d ts1 T ts2 book chapter Hd Hts1 Hb).
  - split; [auto|]. intros _.
    apply findAdjacentChapter_unknown_testament.
    eapply Forall_impl; [apply (find_None_all _ _ HT)|].
    intros t Ht. apply String.eqb_neq, Ht.
Qed.

Lemma findAdjacentChapter_throws_iff_witness :
  findAdjacentChapter exampleCorpus "A" "Exodus" 1 next = Throw TypeError.
Proof.
  apply (findAdjacentChapter_throws_iff exampleCorpus "A" "Exodus" 1 next).
  - apply (bool_decide_unpack _). vm_compute. exact I.
  - right. split; [reflexivity|]. eexists. split; vm_compute; reflexivity.
Defined.

(** X9: the navigator does not check the chapter number against the
    corpus.  For a testament the corpus knows and a chapter number that is
    a safe integer, [prev] on a number above 1 returns the same testament
    and book name with the number one less, whether or not the testament
    has such a book or the book so many chapters; and for a book it knows,
    [next] on any number below the chapter count, zero and negative
    numbers too, returns the number one more. *)
Theorem findAdjacentChapter_unchecked_chapter d testament book chapter T :
  List.find (byTestament testament) d = Some T ->
  safe_integer chapter ->
  (1 < chapter ->
   findAdjacentChapter d testament book chapter prev
   = Return (Some (mkCoordinate testament book (chapter - 1))))
  /\ (forall B,
        List.find (byBook book) (testament_books T) = Some B ->
        chapter < len (book_chapters B) ->
        findAdjacentChapter d testament book chapter next
        = Return (Some (mkCoordinate testament book (chapter + 1)))).
Proof.
  intros HT _.
  destruct (named_position d testament T HT) as (<- & ts1 & ts2 & Hd & Hts1).
  split.
  - intros Hc. apply Z.ltb_lt in Hc.
    destruct (List.find (byBook book) (testament_books T)) as [B|] eqn:HB.
    + destruct (named_book_position T book B HB) as (<- & bs1 & bs2 & Hb & Hbs1).
      rewrite (findAdjacentChapter_prev_at d ts1 T ts2 bs1 B bs2 Hd Hts1 Hb Hbs1), Hc.
      reflexivity.
    + rewrite (findAdjacentChapter_prev_unknown_book d ts1 T ts2 book chapter Hd Hts1), Hc;
        [reflexivity|].
      eapply Forall_impl; [apply (find_None_all _ _ HB)|].
      intros b Hb. apply String.eqb_neq, Hb.
  - intros B HB Hc. apply Z.ltb_lt in Hc.
    destruct (named_book_position T book B HB) as (<- & bs1 & bs2 & Hb & Hbs1).
    rewrite (findAdjacentChapter_next_at d ts1 T ts2 bs1 B bs2 Hd Hts1 Hb Hbs1), Hc.
    reflexivity.
Qed.

Lemma findAdjacentChapter_unchecked_chapter_witness :
  findAdjacentChapter exampleCorpus "A" "Leviticus" 40 prev
  = Return (Some (mkCoordinate "A" "Leviticus" 39)).
Proof.
  apply (findAdjacentChapter_unchecked_chapter exampleCorpus "A" "Leviticus" 40
           (mkTestament "A"
              [ mkBook "Genesis"
                  [ mkChapter 1 [mkVerse 1 "v1"; mkVerse 2 "v2"];
                    mkChapter 2 [mkVerse 1 "w1"] ] ])).
  - vm_compute. reflexivity.
  - unfold safe_integer. lia.
  - lia.
Defined.

(** ** Mounting *)

(** X10: what the mount effect leaves.  When the corpus has a first
    chapter (a first testament with a first book with a first chapter),
    the effect returns a session of three tabs, the navigation tab, the
    search tab and then the restored last tab, or a tab on the first
    chapter when there is none to restore; that third tab is active, and
    the sidebar selection is the first chapter in both cases.  When the
    corpus has no first chapter the effect throws, with or without a last
    tab. *)
Theorem mountEffect_outcome d lastTab savedPositions :
  (forall T B C,
      head d = Some T -> head (testament_books T) = Some B ->
      head (book_chapters B) = Some C ->
      mountEffect d lastTab (initialState savedPositions)
      = Return
          (mkState "" partial
             (Some (testament_name T)) (Some (book_name B)) (Some (chapter_number C))
             [navigationTab; searchTab; default (firstChapterTab T B C) lastTab]
             (tab_id (default (firstChapterTab T B C) lastTab))
             savedPositions))
  /\ ((forall T B, head d = Some T -> head (testament_books T) = Some B ->
                   head (book_chapters B) = None) ->
      mountEffect d lastTab (initialState savedPositions) = Throw TypeError).
Proof.
  unfold mountEffect. rewrite at_index_head. split.
  - intros T B C -> HB HC. simpl. rewrite at_index_head, HB. simpl.
    rewrite at_index_head, HC. destruct lastTab; reflexivity.
  - intros Hnone. destruct (head d) as [T|]; [simpl|reflexivity].
    rewrite at_index_head.
    destruct (head (testament_books T)) as [B|] eqn:HB; [simpl|reflexivity].
    rewrite at_index_head, (Hnone T B eq_refl HB).
    destruct lastTab; reflexivity.
Qed.

Lemma mountEffect_outcome_witness :
  mountEffect [] (Some navigationTab) (initialState ∅) = Throw TypeError.
Proof.
  apply (mountEffect_outcome [] (Some navigationTab) ∅).
  intros T B H. discriminate H.
Defined.

(** ** What the handlers keep *)

(** X11: the permanent tabs stay in front.  In every session reached
    from a start by any events, the first tab has id ["navigation"] and
    kind navigation and the second has id ["search"] and kind
    search-input; and the events keep this of any session that has it. *)
Theorem permanent_tabs_stay_first d searchBible :
  (forall s, reachable d searchBible s -> permanent_first s)
  /\ (forall s events,
        permanent_first s -> permanent_first (run d searchBible s events)).
Proof.
  split.
  - intros s. apply reachable_via_permanent_first.
  - intros s events. revert s.
    induction events as [|e events IH]; intros s Hs; [exact Hs|].
    apply IH, dispatch_permanent_first, Hs.
Qed.

Lemma permanent_tabs_stay_first_witness : permanent_first sampleSession.
Proof.
  apply (proj1 (permanent_tabs_stay_first exampleCorpus noSearch) sampleSession).
  apply (reachable_mount _ _ _ None ∅). vm_compute. reflexivity.
Defined.

(** X12: only closing removes tabs.  Every event other than a tab close
    leaves the tabs of the session in place, each with its id and kind,
    and appends at most one tab after them. *)
Theorem only_close_removes_tabs d searchBible s e :
  (forall tabId, e <> TabClose tabId) ->
  exists kept appended,
    tabs (dispatch d searchBible s e) = kept ++ appended
    /\ map tab_id kept = map tab_id (tabs s)
    /\ map tab_type kept = map tab_type (tabs s)
    /\ (length appended <= 1)%nat.
Proof.
  intros Hclose.
  assert (Hsame : forall s' : State,
             tabs s' = tabs s ->
             exists kept appended,
               tabs s' = kept ++ appended
               /\ map tab_id kept = map tab_id (tabs s)
               /\ map tab_type kept = map tab_type (tabs s)
               /\ (length appended <= 1)%nat).
  { intros s' ->. exists (tabs s), []. rewrite app_nil_r. simpl. auto. }
  assert (Hsearch : forall now query (p : State),
             tabs p = tabs s ->
             exists kept appended,
               tabs (handleSearch d searchBible s now query p) = kept ++ appended
               /\ map tab_id kept = map tab_id (tabs s)
               /\ map tab_type kept = map tab_type (tabs s)
               /\ (length appended <= 1)%nat).
  { intros now query p Hp. unfold handleSearch.
    destruct (String.eqb query ""); [apply Hsame, Hp|].
    eexists (tabs s), [_]. simpl. rewrite Hp. auto. }
  assert (Hverse : forall now testament book chapter highlightedVerse,
             exists kept appended,
               tabs (handleVerseSelection d s now testament book chapter
                       highlightedVerse s) = kept ++ appended
               /\ map tab_id kept = map tab_id (tabs s)
               /\ map tab_type kept = map tab_type (tabs s)
               /\ (length appended <= 1)%nat).
  { intros. unfold handleVerseSelection.
    destruct (len (lookupVerses d testament book chapter) =? 0);
      [apply Hsame; reflexivity|].
    eexists (map (with_isCollapsed false) (tabs s)), [_]. simpl.
    rewrite !map_map. simpl. auto. }
  destruct e; simpl.
  - apply Hsearch. reflexivity.
  - destruct (navigation_step d searchBible s testament book chapter direction)
      as (_ & HF).
    eexists _, []. rewrite app_nil_r. split; [reflexivity|].
    split; [eapply Forall2_in_place_ids, HF|].
    split; [eapply Forall2_in_place_types, HF | simpl; lia].
  - apply Hverse.
  - unfold handleHistoryItemClick. destruct (entry_type historyEntry).
    + apply Hsame. reflexivity.
    + apply Hsame. reflexivity.
    + apply Hverse.
    + apply Hsearch. destruct (entry_searchOptions historyEntry); reflexivity.
  - exfalso. apply (Hclose tabId). reflexivity.
  - apply Hsame. unfold handleTabClick.
    destruct (String.eqb (activeTabId s) tabId); reflexivity.
  - apply Hsame. reflexivity.
  - apply Hsame. reflexivity.
  - apply Hsame. reflexivity.
  - apply Hsame. reflexivity.
  - apply Hsame. reflexivity.
Qed.

Lemma only_close_removes_tabs_witness :
  exists kept appended,
    tabs (dispatch exampleCorpus noSearch sampleSession (Search 5 "x")) = kept ++ appended
    /\ map tab_id kept = map tab_id (tabs sampleSession)
    /\ map tab_type kept = map tab_type (tabs sampleSession)
    /\ (length appended <= 1)%nat.
Proof.
  apply (only_close_removes_tabs exampleCorpus noSearch sampleSession (Search 5 "x")).
  intros tabId. discriminate.
Defined.

Lemma in_place_uncollapsed active (l1 l2 : list Tab) :
  Forall2 (in_place active) l1 l2 ->
  Forall (fun tab => tab_isCollapsed tab = false) l1 ->
  Forall (fun tab => tab_isCollapsed tab = false) l2.
Proof.
  induction 1 as [|t1 t2 l1 l2 Ht _ IH]; intros Hl1; [constructor|].
  apply Forall_cons in Hl1 as (H1 & Hl1).
  destruct Ht as (_ & _ & Hco & _).
  constructor; [congruence | apply IH, Hl1].
Qed.

Lemma remainingTabs_Forall (P : Tab -> Prop) tabId (l : list Tab) :
  Forall P l -> Forall P (remainingTabs tabId l).
Proof.
  rewrite !Forall_forall. intros H tab Htab.
  apply H. apply list_elem_of_In, filter_In in Htab as (Htab & _).
  apply list_elem_of_In, Htab.
Qed.

Lemma handleSearch_uncollapsed d searchBible r now query p :
  uncollapsed p -> uncollapsed (handleSearch d searchBible r now query p).
Proof.
  unfold uncollapsed, handleSearch. intros Hp.
  destruct (String.eqb query ""); simpl; [exact Hp|].
  apply Forall_app. split; [exact Hp | repeat constructor].
Qed.

Lemma handleVerseSelection_uncollapsed d r now testament book chapter highlightedVerse p :
  uncollapsed p ->
  uncollapsed (handleVerseSelection d r now testament book chapter highlightedVerse p).
Proof.
  unfold uncollapsed, handleVerseSelection. intros Hp.
  destruct (len (lookupVerses d testament book chapter) =? 0); simpl; [exact Hp|].
  apply Forall_app. split; [|repeat constructor].
  apply Forall_forall. intros tab Htab.
  apply list_elem_of_In, in_map_iff in Htab as (t0 & <- & _). reflexivity.
Qed.

Lemma dispatch_uncollapsed d searchBible s e :
  uncollapsed s -> uncollapsed (dispatch d searchBible s e).
Proof.
  intros Hs. destruct e; simpl.
  - apply handleSearch_uncollapsed, Hs.
  - destruct (navigation_step d searchBible s testament book chapter direction)
      as (_ & HF).
    apply (in_place_uncollapsed _ _ _ HF Hs).
  - apply handleVerseSelection_uncollapsed, Hs.
  - unfold handleHistoryItemClick. destruct (entry_type historyEntry); try exact Hs.
    + apply handleVerseSelection_uncollapsed, Hs.
    + apply handleSearch_uncollapsed.
      destruct (entry_searchOptions historyEntry); exact Hs.
  - destruct (isPermanent (List.find (fun t => String.eqb (tab_id t) tabId) (tabs s)))
      eqn:Hperm.
    + rewrite (handleTabClose_keeps_permanent s tabId Hperm). exact Hs.
    + rewrite (handleTabClose_closable s tabId Hperm). unfold uncollapsed. simpl.
      apply remainingTabs_Forall, Hs.
  - unfold handleTabClick. destruct (String.eqb (activeTabId s) tabId); exact Hs.
  - exact Hs.
  - exact Hs.
  - exact Hs.
  - exact Hs.
  - exact Hs.
Qed.

(** X13: no handler collapses a tab.  A session none of whose tabs is
    marked collapsed stays so under every sequence of events; and a start
    gives such a session unless the restored last tab is itself marked
    collapsed. *)
Theorem no_handler_collapses d searchBible :
  (forall s events, uncollapsed s -> uncollapsed (run d searchBible s events))
  /\ (forall lastTab savedPositions s,
        mountEffect d lastTab (initialState savedPositions) = Return s ->
        (forall tab, lastTab = Some tab -> tab_isCollapsed tab = false) ->
        uncollapsed s).
Proof.
  split.
  - intros s events. revert s.
    induction events as [|e events IH]; intros s Hs; [exact Hs|].
    apply IH, dispatch_uncollapsed, Hs.
  - intros lastTab savedPositions s Hmount Hlast. unfold mountEffect in Hmount.
    destruct (at_index d 0) as [T|]; [simpl in Hmount|discriminate].
    destruct (at_index (testament_books T) 0) as [B|]; [simpl in Hmount|discriminate].
    destruct (at_index (book_chapters B) 0) as [C|]; simpl in Hmount.
    + destruct lastTab as [tab|]; simpl in Hmount; injection Hmount as <-;
        unfold uncollapsed; simpl; repeat constructor.
      apply Hlast. reflexivity.
    + destruct lastTab; simpl in Hmount; discriminate.
Qed.

Lemma no_handler_collapses_witness :
  uncollapsed (run exampleCorpus noSearch sampleSession
                 [VerseSelect 7 "B" "Exodus" 1 js_undefined; TabClick "navigation"]).
Proof.
  apply (proj1 (no_handler_collapses exampleCorpus noSearch)).
  unfold uncollapsed. vm_compute. repeat constructor.
Defined.

(** ** Closing, scrolling, opening *)

Lemma remainingTabs_elem tabId (l : list Tab) (tab : Tab) :
  tab ∈ remainingTabs tabId l <-> tab ∈ l /\ tab_id tab <> tabId.
Proof.
  unfold remainingTabs. rewrite !list_elem_of_In, filter_In.
  rewrite negb_true_iff, String.eqb_neq. reflexivity.
Qed.

Lemma remainingTabs_sublist tabId (l : list Tab) :
  (remainingTabs tabId l) `sublist_of` l.
Proof.
  induction l as [|tab l IH]; simpl; [constructor|].
  destruct (negb (String.eqb (tab_id tab) tabId)).
  - apply sublist_skip, IH.
  - apply sublist_cons, IH.
Qed.

(** X14: what closing a closable tab does.  When the id resolves to no
    permanent tab, [handleTabClose] returns normally; the tabs left are
    those that do not bear the id, in their order, so that every tab
    bearing it is gone, also when several do; [activeTabId] stays when it
    is another id; the scroll position kept for the id is dropped and the
    others stay; nothing else of the session changes. *)
Theorem handleTabClose_removes_bearers s tabId :
  isPermanent (List.find (fun t => String.eqb (tab_id t) tabId) (tabs s)) = false ->
  exists s',
    handleTabClose s tabId s = Return s'
    /\ (forall tab, tab ∈ tabs s' <-> tab ∈ tabs s /\ tab_id tab <> tabId)
    /\ ((tabs s') `sublist_of` (tabs s))
    /\ (tabId ∉ map tab_id (tabs s'))
    /\ (activeTabId s <> tabId -> activeTabId s' = activeTabId s)
    /\ scrollPositions s' !! tabId = None
    /\ (forall other, other <> tabId ->
          scrollPositions s' !! other = scrollPositions s !! other)
    /\ searchQuery s' = searchQuery s /\ searchMode s' = searchMode s
    /\ selectedTestament s' = selectedTestament s
    /\ selectedBook s' = selectedBook s
    /\ selectedChapter s' = selectedChapter s.
Proof.
  intros Hperm. eexists. split; [apply (handleTabClose_closable s tabId Hperm)|].
  simpl. split; [apply remainingTabs_elem|].
  split; [apply remainingTabs_sublist|].
  split.
  { intros Hin. apply list_elem_of_In, in_map_iff in Hin as (tab & Hid & Htab).
    apply list_elem_of_In, remainingTabs_elem in Htab as (_ & Hne). contradiction. }
  split.
  { intros Hne. apply String.eqb_neq in Hne. rewrite Hne. reflexivity. }
  split; [apply lookup_delete_eq|].
  split; [intros other Hne; apply lookup_delete_ne; congruence|].
  repeat split; reflexivity.
Qed.

Lemma handleTabClose_removes_bearers_witness :
  exists s',
    handleTabClose searchSession "search-results-5" searchSession = Return s'
    /\ "search-results-5" ∉ map tab_id (tabs s').
Proof.
  destruct (handleTabClose_removes_bearers searchSession "search-results-5")
    as (s' & Hclose & _ & _ & Hgone & _).
  - vm_compute. reflexivity.
  - exists s'. split; [exact Hclose | exact Hgone].
Defined.

(** X15: scroll positions.  [handleScroll] records the position under the
    tab id and leaves the positions of other ids alone.  Closing the tab
    afterwards forgets it when the tab is closable; when the id resolves to
    a permanent tab the close is refused and the position stays. *)
Theorem scroll_then_close d searchBible s tabId position :
  scrollPositions (dispatch d searchBible s (Scroll tabId position)) !! tabId
  = Some position
  /\ (forall other, other <> tabId ->
        scrollPositions (dispatch d searchBible s (Scroll tabId position)) !! other
        = scrollPositions s !! other)
  /\ (isPermanent (List.find (fun t => String.eqb (tab_id t) tabId) (tabs s)) = false ->
      scrollPositions (run d searchBible s [Scroll tabId position; TabClose tabId])
      = delete tabId (scrollPositions s))
  /\ (isPermanent (List.find (fun t => String.eqb (tab_id t) tabId) (tabs s)) = true ->
      scrollPositions (run d searchBible s [Scroll tabId position; TabClose tabId]) !! tabId
      = Some position).
Proof.
  split; [apply lookup_insert_eq|].
  split; [intros other Hne; apply lookup_insert_ne; congruence|].
  split; intros Hperm; unfold run; simpl.
  - rewrite handleTabClose_closable by exact Hperm. simpl.
    apply delete_insert_eq.
  - rewrite handleTabClose_keeps_permanent by exact Hperm. simpl.
    apply lookup_insert_eq.
Qed.

Lemma scroll_then_close_witness :
  scrollPositions
    (run exampleCorpus noSearch sampleSession
       [Scroll "navigation" 120; TabClose "navigation"]) !! "navigation"
  = Some 120.
Proof.
  apply (scroll_then_close exampleCorpus noSearch sampleSession "navigation" 120).
  vm_compute. reflexivity.
Defined.

Lemma find_fresh_last (l : list Tab) (tab : Tab) :
  tab_id tab ∉ map tab_id l ->
  List.find (fun t => String.eqb (tab_id t) (tab_id tab)) (l ++ [tab]) = Some tab.
Proof.
  intros Hfresh. apply find_first; [|apply String.eqb_refl].
  apply Forall_forall. intros t Ht. apply String.eqb_neq. intros Heq.
  apply Hfresh. rewrite <- Heq. apply list_elem_of_In, in_map, list_elem_of_In, Ht.
Qed.

Lemma remainingTabs_fresh_last (l : list Tab) (tab : Tab) :
  tab_id tab ∉ map tab_id l ->
  remainingTabs (tab_id tab) (l ++ [tab]) = l.
Proof.
  intros Hfresh. unfold remainingTabs. rewrite List.filter_app. simpl.
  rewrite String.eqb_refl. simpl. rewrite app_nil_r.
  induction l as [|t l IH]; simpl; [reflexivity|].
  destruct (String.eqb_spec (tab_id t) (tab_id tab)) as [Heq|Hne]; simpl.
  - exfalso. apply Hfresh. rewrite <- Heq. simpl. left.
  - f_equal. apply IH. intros Hin. apply Hfresh. simpl. right. exact Hin.
Qed.

(** X16: opening a verse tab and closing it again.  When the coordinate
    resolves to verses and no tab bears the id the new tab gets, the close
    removes the new tab alone: the tab list is the old one with every
    collapsed flag cleared, and [activeTabId] falls back to the id of the
    last tab of the old list, not to the tab that was active before; with
    no tab left it keeps the closed id. *)
Theorem open_then_close d searchBible s now testament book chapter highlightedVerse :
  lookupVerses d testament book chapter <> [] ->
  "verse-" +:+ testament +:+ "-" +:+ book +:+ "-" +:+ pretty chapter +:+ "-" +:+ pretty now
    ∉ map tab_id (tabs s) ->
  let newId :=
    "verse-" +:+ testament +:+ "-" +:+ book +:+ "-" +:+ pretty chapter
      +:+ "-" +:+ pretty now in
  let s' :=
    run d searchBible s
      [VerseSelect now testament book chapter highlightedVerse; TabClose newId] in
  tabs s' = map (with_isCollapsed false) (tabs s)
  /\ activeTabId s' = match last (tabs s) with
                      | Some tab => tab_id tab
                      | None => newId
                      end.
Proof.
  intros Hv Hfresh newId. apply len_eqb_0 in Hv.
  pose (verseTab :=
          mkTab newId verse (book +:+ " " +:+ pretty chapter)
            (ContentVerse testament book chapter (lookupVerses d testament book chapter)
               highlightedVerse
               (if truthy highlightedVerse then Some (searchQuery s) else None))
            None false).
  pose (s1 := setActiveTabId (tab_id verseTab)
                (setTabs (fun prevTabs => map (with_isCollapsed false) prevTabs ++ [verseTab])
                   s)).
  assert (Hopen : dispatch d searchBible s
                    (VerseSelect now testament book chapter highlightedVerse) = s1).
  { simpl. unfold handleVerseSelection. rewrite Hv. reflexivity. }
  assert (Hfresh' : tab_id verseTab ∉ map tab_id (map (with_isCollapsed false) (tabs s))).
  { rewrite map_map. simpl. exact Hfresh. }
  assert (Hperm : isPermanent
                    (List.find (fun t => String.eqb (tab_id t) newId) (tabs s1)) = false).
  { change (tabs s1) with (map (with_isCollapsed false) (tabs s) ++ [verseTab]).
    change newId with (tab_id verseTab).
    rewrite (find_fresh_last _ verseTab Hfresh'). reflexivity. }
  unfold run. cbn [fold_left]. rewrite Hopen. cbn [dispatch].
  rewrite (handleTabClose_closable s1 newId Hperm).
  cbn [settle tabs activeTabId setScrollPositions setScrollPositionsWith setActiveTabId
       setTabs].
  change (tabs s1) with (map (with_isCollapsed false) (tabs s) ++ [verseTab]).
  change (activeTabId s1) with newId.
  rewrite String.eqb_refl.
  pose proof (remainingTabs_fresh_last _ verseTab Hfresh') as Hrem.
  change (tab_id verseTab) with newId in Hrem. rewrite Hrem.
  split; [reflexivity|].
  destruct (tabs s) as [|tab l] using rev_ind; [reflexivity|].
  rewrite map_app. simpl. rewrite !last_snoc. reflexivity.
Qed.

Lemma open_then_close_witness :
  tabs (run exampleCorpus noSearch sampleSession
          [VerseSelect 7 "B" "Exodus" 1 js_undefined; TabClose "verse-B-Exodus-1-7"])
  = map (with_isCollapsed false) (tabs sampleSession).
Proof.
  apply (open_then_close exampleCorpus noSearch sampleSession 7 "B" "Exodus" 1 js_undefined).
  - vm_compute. discriminate.
  - apply (bool_decide_unpack _). vm_compute. exact I.
Defined.

(** ** Searching *)

(** X17: when the replay of a search record is faithful.  For a record
    whose stored mode is the mode of the session, or that stores no mode,
    [handleHistoryItemClick] does exactly what [handleSearch] does with the
    stored query. *)
Theorem replay_in_current_mode d searchBible s now historyEntry :
  entry_type historyEntry = search_results ->
  entry_searchOptions historyEntry = None
  \/ entry_searchOptions historyEntry = Some (mkSearchOptions (searchMode s)) ->
  handleHistoryItemClick d searchBible s now historyEntry s
  = handleSearch d searchBible s now (entry_searchQuery historyEntry) s.
Proof.
  intros Htype Hopts. unfold handleHistoryItemClick, handleSearch.
  rewrite Htype.
  destruct Hopts as [-> | ->]; destruct s; simpl;
    destruct (String.eqb (entry_searchQuery historyEntry) ""); reflexivity.
Qed.

Lemma replay_in_current_mode_witness :
  handleHistoryItemClick exampleCorpus noSearch sampleSession 5
    (mkHistoryEntry search_results "" "" 0 js_undefined "x" None) sampleSession
  = searchSession.
Proof.
  apply (replay_in_current_mode exampleCorpus noSearch sampleSession 5
           (mkHistoryEntry search_results "" "" 0 js_undefined "x" None)).
  - reflexivity.
  - left. reflexivity.
Defined.

Lemma run_app d searchBible s events1 events2 :
  run d searchBible s (events1 ++ events2)
  = run d searchBible (run d searchBible s events1) events2.
Proof. unfold run. apply fold_left_app. Qed.

(** X18: searches are not merged.  A sequence of searches with non-empty
    queries appends one result tab per search, in order, to the tabs
    already open, which stay as they are: the same query asked twice gives
    two tabs.  All are searched in the mode of the session, which the
    searches do not change, and the last one is the active tab. *)
Theorem searches_append_tabs d searchBible s searches :
  Forall (fun search => snd search <> "") searches ->
  let s' := run d searchBible s (searchEvents searches) in
  tabs s' = tabs s ++ map (searchResultsTab d searchBible (searchMode s)) searches
  /\ searchMode s' = searchMode s
  /\ activeTabId s'
     = match last searches with
       | Some search => "search-results-" +:+ pretty (fst search)
       | None => activeTabId s
       end.
Proof.
  simpl. induction searches as [|[now query] searches IH] using rev_ind; intros Hq.
  - simpl. rewrite app_nil_r. auto.
  - apply Forall_app in Hq as (Hq & Hlast).
    apply (proj1 (Forall_singleton _ _)) in Hlast. simpl in Hlast.
    destruct (IH Hq) as (Htabs & Hmode & _).
    unfold searchEvents. rewrite map_app, run_app. simpl.
    fold (searchEvents searches).
    unfold run at 1. simpl. unfold handleSearch.
    apply String.eqb_neq in Hlast. rewrite Hlast. simpl.
    rewrite Htabs, Hmode, map_app, last_snoc, <- app_assoc. simpl.
    unfold searchResultsTab at 3. simpl. unfold run in Hmode. rewrite Hmode. auto.
Qed.

Lemma searches_append_tabs_witness :
  tabs (run exampleCorpus noSearch sampleSession (searchEvents [(5, "x"); (6, "x")]))
  = tabs sampleSession
    ++ map (searchResultsTab exampleCorpus noSearch partial) [(5, "x"); (6, "x")].
Proof.
  apply (searches_append_tabs exampleCorpus noSearch sampleSession [(5, "x"); (6, "x")]).
  repeat constructor; discriminate.
Defined.

(** X19: replaying a search record twice.  The first replay is searched
    in the mode the session had, and leaves the session in the recorded
    mode; so the second replay of the same record is searched in the
    recorded mode.  Two tabs are appended, one for each replay. *)
Theorem replay_twice d searchBible s now1 now2 historyEntry mode :
  entry_type historyEntry = search_results ->
  entry_searchOptions historyEntry = Some (mkSearchOptions mode) ->
  entry_searchQuery historyEntry <> "" ->
  let s' :=
    run d searchBible s
      [HistoryItemClick now1 historyEntry; HistoryItemClick now2 historyEntry] in
  tabs s'
  = tabs s
    ++ [ searchResultsTab d searchBible (searchMode s)
           (now1, entry_searchQuery historyEntry);
         searchResultsTab d searchBible mode
           (now2, entry_searchQuery historyEntry) ]
  /\ searchMode s' = mode.
Proof.
  intros Htype Hopts Hq. apply String.eqb_neq in Hq.
  unfold run. cbn [fold_left dispatch].
  rewrite !(replay_of_search_record d searchBible _ _ historyEntry mode Htype Hopts).
  unfold handleSearch. rewrite Hq. simpl.
  rewrite <- app_assoc. split; reflexivity.
Qed.

Lemma replay_twice_witness :
  searchMode
    (run exampleCorpus noSearch sampleSession
       [HistoryItemClick 5 exactSearchEntry; HistoryItemClick 6 exactSearchEntry])
  = exact.
Proof.
  apply (replay_twice exampleCorpus noSearch sampleSession 5 6 exactSearchEntry exact).
  - reflexivity.
  - reflexivity.
  - discriminate.
Defined.

(** X20: the id of a result tab is its time stamp.  Two tabs built by
    [handleSearch] bear the same id exactly when they were built at the
    same time, whatever the queries and the mode; searches made at
    pairwise different times give tabs with pairwise different ids. *)
Theorem search_tab_ids d searchBible mode :
  (forall search1 search2,
      tab_id (searchResultsTab d searchBible mode search1)
      = tab_id (searchResultsTab d searchBible mode search2)
      <-> fst search1 = fst search2)
  /\ (forall searches,
        NoDup (map fst searches) ->
        NoDup (map tab_id (map (searchResultsTab d searchBible mode) searches))).
Proof.
  assert (Hinj : forall n1 n2 : Z,
             "search-results-" +:+ pretty n1 = "search-results-" +:+ pretty n2 ->
             n1 = n2).
  { intros n1 n2 H. apply (inj (String.append "search-results-")) in H.
    apply (inj pretty), H. }
  split.
  - intros search1 search2. simpl. split; [apply Hinj | intros ->; reflexivity].
  - intros searches Hnd. rewrite map_map. simpl.
    induction searches as [|search searches IH]; simpl; [constructor|].
    simpl in Hnd. apply NoDup_cons in Hnd as (Hnotin & Hnd).
    apply NoDup_cons. split; [|apply IH, Hnd].
    intros Hin. apply Hnotin.
    apply list_elem_of_In, in_map_iff in Hin as (other & Heq & Hother).
    apply Hinj in Heq. rewrite <- Heq.
    apply list_elem_of_In, in_map, Hother.
Qed.

Lemma search_tab_ids_witness :
  NoDup (map tab_id
           (map (searchResultsTab exampleCorpus noSearch partial) [(5, "x"); (6, "x")])).
Proof.
  apply (proj2 (search_tab_ids exampleCorpus noSearch partial) [(5, "x"); (6, "x")]).
  apply (bool_decide_unpack _). vm_compute. exact I.
Defined.
